(** * Scenario validation, version diff and simulation trace of the
      IoT manager plugin ([src/main.ts])

    The three commands that carry logic are embedded here as Rocq functions
    over the values that [jsyaml.load] hands to them:

    - [validate-yaml-scenario] (lines 122-157): the schema validator;
    - [simpleDiff] (lines 231-245): the structural differ;
    - [simulate-scenario] (lines 250-275): the trace formatter.

    The commands that move a YAML text in and out of a note
    ([import-yaml-scenario], [export-yaml-scenario], [create-versioned-copy],
    lines 32-90) and the template generator (lines 159-193) are embedded as
    functions of what they read.  The YAML loader and dumper, the listing
    and sorting of the files of the store and the dialogs are the host's
    and the libraries' and are left out.

    JavaScript values are a tagged union.  A mapping is an association list
    in property-enumeration order, because [JSON.stringify] is sensitive to
    it.  Strings are byte strings (the UTF-8 form of the JavaScript string).
    Numbers are the integers: [VNum z] is the Number that the YAML integer
    scalar [z] loads as, which is [z] below 2^53 in magnitude, the nearest
    double beyond, and an infinity from 2^1024 - 2^970 on.  Fractional
    numbers and [NaN], and the dates and binary data of the YAML schema, are
    outside the model.  Values are trees: the cyclic values that YAML
    aliases can build are outside the model too.  The keys of
    a mapping are distinct, as they are in every value the loader returns.
    The length and the characters of a string are counted in bytes; the
    source reads them only to test a length against zero and to read
    properties that no string has.

    A [TypeError] raised by the JavaScript runtime (reading a property of
    [null] or [undefined], calling a method that does not exist, [in] applied
    to a primitive, converting to a string a mapping that has a key
    [toString]) is an explicit [Throw].  The arrays [errors], [changes]
    and [simulation] that the callbacks fill with [push] are threaded as
    state. *)

From Stdlib Require Import String Ascii List ZArith Bool.
From Stdlib Require Import Decimal DecimalString DecimalNat.
Import ListNotations.
Local Open Scope list_scope.
Local Open Scope string_scope.
Local Set Warnings "-register-all".

(** ** Values *)

Inductive value : Type :=
| VUndef
| VNull
| VBool (b : bool)
| VNum (n : Z)
| VStr (s : string)
| VArr (l : list value)
| VObj (m : list (string * value)).

(** [typeof v] *)
Definition typeof (v : value) : string :=
  match v with
  | VUndef => "undefined"
  | VNull => "object"
  | VBool _ => "boolean"
  | VNum _ => "number"
  | VStr _ => "string"
  | VArr _ => "object"
  | VObj _ => "object"
  end.

(** [!!v]: the falsy values are [undefined], [null], [false], [0] and the
    empty string. *)
Definition truthy (v : value) : bool :=
  match v with
  | VUndef => false
  | VNull => false
  | VBool b => b
  | VNum n => negb (Z.eqb n 0)
  | VStr s => negb (String.eqb s "")
  | VArr _ => true
  | VObj _ => true
  end.

(** [Array.isArray(v)] *)
Definition isArray (v : value) : bool :=
  match v with
  | VArr _ => true
  | _ => false
  end.

(** ** Rendering numbers *)

Definition string_of_nat (n : nat) : string :=
  NilEmpty.string_of_uint (Nat.to_uint n).

(** The digits of an integer. *)
Definition decimal_of_Z (z : Z) : string :=
  NilEmpty.string_of_int (Z.to_int z).

(** The Number nearest to the positive integer [x]: [x] itself when it has
    at most 53 bits, else [x] rounded to 53 significant bits, a tie going to
    the even significand.  [None] is [Infinity], which is reached from
    [2^1024 - 2^970] on. *)
Definition nearest_double (x : Z) : option Z :=
  let bits := (Z.log2 x + 1)%Z in
  if (bits <=? 53)%Z then Some x
  else
    let e := (bits - 53)%Z in
    let q := Z.shiftr x e in
    let r := (x - Z.shiftl q e)%Z in
    let half := Z.shiftl 1 (e - 1) in
    let q' :=
      if (r <? half)%Z then q
      else if (half <? r)%Z then (q + 1)%Z
      else if Z.even q then q else (q + 1)%Z in
    let y := Z.shiftl q' e in
    if (Z.shiftl 1 1024 <=? y)%Z then None else Some y.

(** [Number::toString] (ECMA-262, 6.1.6.1.20) writes the Number [x] from
    integers [n], [k] and [s] such that [s] has [k] digits, [s * 10^(n-k)]
    is a decimal that denotes [x], and [k] is as small as possible; of
    several such [s] the one closest to [x], and of two equally close the
    even one. *)
Definition denotes (x s p : Z) : bool :=
  match nearest_double (s * 10 ^ p) with
  | Some y => (y =? x)%Z
  | None => false
  end.

(** The pairs [(n, s)] for [k] digits.  Of the [s] that denote [x] with a
    given [n], the closest are the two around [x / 10^(n-k)]. *)
Definition candidates (x k : Z) : list (Z * Z) :=
  let d := Z.of_nat (String.length (decimal_of_Z x)) in
  flat_map
    (fun n =>
       let p := (n - k)%Z in
       if (p <? 0)%Z then []
       else
         flat_map
           (fun s =>
              if (10 ^ (k - 1) <=? s)%Z && (s <? 10 ^ k)%Z && denotes x s p
              then [(n, s)] else [])
           [(x / 10 ^ p)%Z; (x / 10 ^ p + 1)%Z])
    [d; (d + 1)%Z].

Definition distance (x k : Z) (c : Z * Z) : Z :=
  Z.abs (snd c * 10 ^ (fst c - k) - x).

Fixpoint closest (x k : Z) (best : Z * Z) (l : list (Z * Z)) : Z * Z :=
  match l with
  | [] => best
  | c :: r =>
      closest x k
        (if (distance x k c <? distance x k best)%Z then c
         else if (distance x k c =? distance x k best)%Z && Z.even (snd c)
              then c else best)
        r
  end.

(** [(n, k, s)], searched from [k] digits up; seventeen digits tell any
    two Numbers apart. *)
Fixpoint shortest (x k : Z) (fuel : nat) : Z * Z * Z :=
  match fuel with
  | O => let d := Z.of_nat (String.length (decimal_of_Z x)) in (d, d, x)
  | S fuel' =>
      match candidates x k with
      | c :: r => let b := closest x k c r in (fst b, k, snd b)
      | [] => shortest x (k + 1)%Z fuel'
      end
  end.

Fixpoint zeros (n : nat) : string :=
  match n with
  | O => ""
  | S m => "0" ++ zeros m
  end.

(** The text of a positive integral Number: its [k] digits and [n - k]
    zeros up to twenty-one digits, the exponent form beyond. *)
Definition positive_to_string (x : Z) : string :=
  let '(n, k, s) := shortest x 1 17 in
  if (n <=? 21)%Z then decimal_of_Z s ++ zeros (Z.to_nat (n - k))
  else
    match decimal_of_Z s with
    | String c EmptyString => String c EmptyString ++ "e+" ++ decimal_of_Z (n - 1)
    | String c r => String c EmptyString ++ "." ++ r ++ "e+" ++ decimal_of_Z (n - 1)
    | EmptyString => ""
    end.

(** The Number that the integer [z] loads as is finite. *)
Definition finite (z : Z) : bool :=
  match nearest_double (Z.abs z) with
  | Some _ => true
  | None => false
  end.

(** [String(z)] for the Number that the integer [z] loads as.  An integer
    below 2^53 in magnitude is that Number, and is written with all its
    digits. *)
Definition string_of_Z (z : Z) : string :=
  if (Z.abs z <? 9007199254740992)%Z then decimal_of_Z z
  else
    match nearest_double (Z.abs z) with
    | Some x => (if (z <? 0)%Z then "-" else "") ++ positive_to_string x
    | None => if (z <? 0)%Z then "-Infinity" else "Infinity"
    end.

(** The key of the array index [n], when [k] is its canonical decimal form. *)
Definition array_index (k : string) : option nat :=
  match NilEmpty.uint_of_string k with
  | Some d =>
      let n := Nat.of_uint d in
      if String.eqb (string_of_nat n) k then Some n else None
  | None => None
  end.

(** The characters of a numeral. *)
Definition is_digit (c : ascii) : bool :=
  let n := nat_of_ascii c in Nat.leb 48 n && Nat.leb n 57.

Fixpoint all_digits (s : string) : bool :=
  match s with
  | EmptyString => true
  | String c r => is_digit c && all_digits r
  end.

(** [r] does not continue a numeral. *)
Definition ends_numeral (r : string) : bool :=
  match r with
  | EmptyString => true
  | String c _ => negb (is_digit c)
  end.

(** ** Exceptions *)

Inductive exn : Type :=
| TypeError.

Inductive result (A : Type) : Type :=
| Ok (a : A)
| Throw (e : exn).

Arguments Ok {A} a.
Arguments Throw {A} e.

(** ** Property access *)

Fixpoint lookup (k : string) (m : list (string * value)) : option value :=
  match m with
  | [] => None
  | (k', v) :: m' => if String.eqb k k' then Some v else lookup k m'
  end.

Definition or_undefined (o : option value) : value :=
  match o with
  | Some v => v
  | None => VUndef
  end.

(** [v[k]] for a property name [k].  Reading a property of [undefined] or
    [null] raises; a missing property reads as [undefined].  The property
    names read by the source ([scenarios], [id], [name], [triggers], [steps],
    [trigger], [type], [value], [parameters], [items], [length]) are not
    defined on any prototype except [length] on arrays and strings. *)
Definition get (v : value) (k : string) : result value :=
  match v with
  | VUndef => Throw TypeError
  | VNull => Throw TypeError
  | VBool _ => Ok VUndef
  | VNum _ => Ok VUndef
  | VStr s =>
      if String.eqb k "length" then Ok (VNum (Z.of_nat (String.length s)))
      else match array_index k with
           | Some i =>
               match String.get i s with
               | Some c => Ok (VStr (String c EmptyString))
               | None => Ok VUndef
               end
           | None => Ok VUndef
           end
  | VArr l =>
      if String.eqb k "length" then Ok (VNum (Z.of_nat (List.length l)))
      else match array_index k with
           | Some i => Ok (nth i l VUndef)
           | None => Ok VUndef
           end
  | VObj m => Ok (or_undefined (lookup k m))
  end.

(** [v?.k] *)
Definition get_opt (v : value) (k : string) : value :=
  match get v k with
  | Ok x => x
  | Throw _ => VUndef
  end.

(** [v[i]] for a number [i] that is an array index. *)
Definition get_index (v : value) (i : nat) : result value :=
  get v (string_of_nat i).

(** [k in v]: raises unless [v] is an object. *)
Definition has_property (k : string) (v : value) : result bool :=
  match v with
  | VArr l =>
      Ok (String.eqb k "length"
          || match array_index k with
             | Some i => Nat.ltb i (List.length l)
             | None => false
             end)
  | VObj m =>
      Ok (match lookup k m with Some _ => true | None => false end)
  | _ => Throw TypeError
  end.

(** ** [JSON.stringify] *)

Definition dquote : string := String "034"%char EmptyString.
Definition backslash : string := String "092"%char EmptyString.

Definition hex_digit (n : nat) : ascii :=
  match n with
  | 0 => "0" | 1 => "1" | 2 => "2" | 3 => "3" | 4 => "4"
  | 5 => "5" | 6 => "6" | 7 => "7" | 8 => "8" | 9 => "9"
  | 10 => "a" | 11 => "b" | 12 => "c" | 13 => "d" | 14 => "e"
  | _ => "f"
  end%char.

(** One character of a quoted JSON string. *)
Definition json_escape_char (c : ascii) : string :=
  let n := nat_of_ascii c in
  if Nat.eqb n 34 then backslash ++ dquote
  else if Nat.eqb n 92 then backslash ++ backslash
  else if Nat.eqb n 8 then backslash ++ "b"
  else if Nat.eqb n 9 then backslash ++ "t"
  else if Nat.eqb n 10 then backslash ++ "n"
  else if Nat.eqb n 12 then backslash ++ "f"
  else if Nat.eqb n 13 then backslash ++ "r"
  else if Nat.ltb n 32 then
    backslash ++ "u00"
      ++ String (hex_digit (n / 16)) (String (hex_digit (n mod 16)) EmptyString)
  else String c EmptyString.

Fixpoint json_escape (s : string) : string :=
  match s with
  | EmptyString => EmptyString
  | String c s' => json_escape_char c ++ json_escape s'
  end.

Definition json_quote (s : string) : string :=
  dquote ++ json_escape s ++ dquote.

(** [JSON.stringify(v)]; [None] is the result [undefined].  Inside an array
    [undefined] is written [null]; inside an object a property whose value is
    [undefined] is left out; a number that is not finite is written
    [null]. *)
Fixpoint stringify (v : value) : option string :=
  match v with
  | VUndef => None
  | VNull => Some "null"
  | VBool true => Some "true"
  | VBool false => Some "false"
  | VNum n => Some (if finite n then string_of_Z n else "null")
  | VStr s => Some (json_quote s)
  | VArr l =>
      let items :=
        (fix elements (l : list value) : list string :=
           match l with
           | [] => []
           | x :: r =>
               match stringify x with
               | Some t => t
               | None => "null"
               end :: elements r
           end) l in
      Some ("[" ++ String.concat "," items ++ "]")
  | VObj m =>
      let items :=
        (fix members (m : list (string * value)) : list string :=
           match m with
           | [] => []
           | (k, x) :: r =>
               match stringify x with
               | Some t => (json_quote k ++ ":" ++ t) :: members r
               | None => members r
               end
           end) m in
      Some ("{" ++ String.concat "," items ++ "}")
  end.

(** A value interpolated in a template literal, for the two kinds of value
    the source interpolates: a string or [undefined] returned by
    [JSON.stringify]. *)
Definition interpolate (o : option string) : string :=
  match o with
  | Some s => s
  | None => "undefined"
  end.

(** [a !== b] on results of [JSON.stringify]. *)
Definition strict_neq (a b : option string) : bool :=
  match a, b with
  | Some x, Some y => negb (String.eqb x y)
  | None, None => false
  | _, _ => true
  end.

(** [String(v)], the conversion a template literal applies to a value.
    An object is converted by its [toString] method.  A mapping inherits
    the method that answers [[object Object]], unless it has a key
    [toString] of its own: the value of the key is not a function, the
    [valueOf] that is tried next does not give a primitive either, and the
    conversion raises.  A sequence is converted by [join], which converts
    its elements in turn, [undefined] and [null] to the empty string. *)
Fixpoint to_string (v : value) : result string :=
  match v with
  | VUndef => Ok "undefined"
  | VNull => Ok "null"
  | VBool true => Ok "true"
  | VBool false => Ok "false"
  | VNum n => Ok (string_of_Z n)
  | VStr s => Ok s
  | VArr l =>
      match
        (fix elements (l : list value) : result (list string) :=
           match l with
           | [] => Ok []
           | x :: r =>
               match
                 match x with
                 | VUndef => Ok ""
                 | VNull => Ok ""
                 | _ => to_string x
                 end
               with
               | Ok t =>
                   match elements r with
                   | Ok ts => Ok (t :: ts)
                   | Throw e => Throw e
                   end
               | Throw e => Throw e
               end
           end) l
      with
      | Ok ts => Ok (String.concat "," ts)
      | Throw e => Throw e
      end
  | VObj m =>
      match lookup "toString" m with
      | Some _ => Throw TypeError
      | None => Ok "[object Object]"
      end
  end.

(** The text of an element of a sequence that [join] puts together. *)
Definition element_text (x : value) : result string :=
  match x with
  | VUndef => Ok ""
  | VNull => Ok ""
  | _ => to_string x
  end.

(** ** Arrays filled with [push]

    A computation reads and extends the array it pushes to, and either
    returns or throws.  What was pushed before a throw stays in the state. *)

Definition M (A : Type) : Type := list string -> list string * result A.

Definition ret {A : Type} (a : A) : M A :=
  fun st => (st, Ok a).

Definition bind {A B : Type} (c : M A) (k : A -> M B) : M B :=
  fun st =>
    match c st with
    | (st', Ok a) => k a st'
    | (st', Throw e) => (st', Throw e)
    end.

Definition lift {A : Type} (r : result A) : M A :=
  fun st => (st, r).

(** [array.push(...items)] *)
Definition push_all (items : list string) : M unit :=
  fun st => ((st ++ items)%list, Ok tt).

Definition push (item : string) : M unit :=
  push_all [item].

Declare Scope js_scope.
Delimit Scope js_scope with js.
Notation "x <- c ;; k" := (bind c (fun x => k))
  (at level 61, c at next level, right associativity) : js_scope.
Notation "c ;; k" := (bind c (fun _ => k))
  (at level 61, right associativity) : js_scope.
Local Open Scope js_scope.

(** [if (b) c] *)
Definition when (b : bool) (c : M unit) : M unit :=
  if b then c else ret tt.

Fixpoint forEach_from (f : value -> nat -> M unit) (l : list value) (i : nat)
  : M unit :=
  match l with
  | [] => ret tt
  | x :: r => f x i ;; forEach_from f r (S i)
  end.

(** [v.forEach(f)]: only an array has the method. *)
Definition forEach (v : value) (f : value -> nat -> M unit) : M unit :=
  match v with
  | VArr l => forEach_from f l 0
  | _ => lift (Throw TypeError)
  end.

Fixpoint map_result {A : Type} (f : value -> result A) (l : list value)
  : result (list A) :=
  match l with
  | [] => Ok []
  | x :: r =>
      match f x with
      | Ok y =>
          match map_result f r with
          | Ok ys => Ok (y :: ys)
          | Throw e => Throw e
          end
      | Throw e => Throw e
      end
  end.

(** [v.map(f)]: only an array has the method. *)
Definition map_array {A : Type} (v : value) (f : value -> result A)
  : result (list A) :=
  match v with
  | VArr l => map_result f l
  | _ => Throw TypeError
  end.

(** [list.filter(Boolean)] on a list of strings and [null]s, all the strings
    being non-empty. *)
Fixpoint filter_Boolean (l : list (option string)) : list string :=
  match l with
  | [] => []
  | Some s :: r => s :: filter_Boolean r
  | None :: r => filter_Boolean r
  end.

Definition newline : string := String "010"%char EmptyString.

(** [list.join(sep)] *)
Definition join (sep : string) (l : list string) : string :=
  String.concat sep l.

Definition nonempty {A : Type} (l : list A) : bool :=
  match l with
  | [] => false
  | _ :: _ => true
  end.

(** The run [c] pushes an initial segment of [g], and all of [g] when it
    returns. *)
Definition runs_within {A : Type} (c : M A) (g : list string) : Prop :=
  forall st,
    exists p q r,
      c st = ((st ++ p)%list, r)
      /\ g = (p ++ q)%list
      /\ (forall a, r = Ok a -> q = []).

(** ** The validator (lines 131-155) *)

Module Validator.

(** Line 136. *)
Definition checkField (field : string) (v : value) (type : string)
  : option string :=
  if negb (truthy v) || negb (String.eqb (typeof v) type)
  then Some (field ++ " invalid")
  else None.

(** Lines 143-144, the body of [s.triggers.forEach((t, j) => ...)]. *)
Definition check_trigger (i : nat) (t : value) (j : nat) : M unit :=
  bad_type <-
    (tr <- lift (get t "trigger") ;;
     if negb (truthy (get_opt tr "type")) then ret true
     else
       tr' <- lift (get t "trigger") ;;
       ty <- lift (get tr' "type") ;;
       ret (negb (String.eqb (typeof ty) "string"))) ;;
  when bad_type
    (push ("Scenario " ++ string_of_nat i ++ ", Trigger " ++ string_of_nat j
             ++ ": type invalid")) ;;
  tr <- lift (get t "trigger") ;;
  present <- lift (has_property "value" tr) ;;
  when (negb present)
    (push ("Scenario " ++ string_of_nat i ++ ", Trigger " ++ string_of_nat j
             ++ ": value missing")).

(** Line 148, the body of [s.steps.forEach((st, k) => ...)]. *)
Definition check_step (i : nat) (st : value) (k : nat) : M unit :=
  bad <-
    (ty <- lift (get st "type") ;;
     if negb (truthy ty) then ret true
     else
       params <- lift (get st "parameters") ;;
       if negb (truthy (get_opt params "items")) then ret true
       else
         params' <- lift (get st "parameters") ;;
         items <- lift (get params' "items") ;;
         ret (negb (isArray items))) ;;
  when bad
    (push ("Scenario " ++ string_of_nat i ++ ", Step " ++ string_of_nat k
             ++ ": invalid structure")).

(** Lines 136-149, the body of [data.scenarios.forEach((s, i) => ...)]. *)
Definition check_scenario (s : value) (i : nat) : M unit :=
  id <- lift (get s "id") ;;
  name <- lift (get s "name") ;;
  push_all
    (filter_Boolean
       [checkField ("Scenario " ++ string_of_nat i ++ ": id") id "string";
        checkField ("Scenario " ++ string_of_nat i ++ ": name") name "string"]) ;;
  triggers <- lift (get s "triggers") ;;
  (if negb (truthy triggers) || negb (isArray triggers)
   then push ("Scenario " ++ string_of_nat i
                ++ ": triggers missing or not an array")
   else
     triggers' <- lift (get s "triggers") ;;
     forEach triggers' (check_trigger i)) ;;
  steps <- lift (get s "steps") ;;
  (if negb (truthy steps) || negb (isArray steps)
   then push ("Scenario " ++ string_of_nat i
                ++ ": steps missing or not an array")
   else
     steps' <- lift (get s "steps") ;;
     forEach steps' (check_step i)).

(** How the [try] block ends when it does not throw: with the early return
    of line 133, or after all the checks. *)
Inductive completion : Type :=
| ScenariosRejected
| Checked.

(** Lines 133-150, run on the loaded [data]; the state is [errors]. *)
Definition check_document (data : value) : M completion :=
  if negb (truthy (get_opt data "scenarios")) then ret ScenariosRejected
  else
    scenarios <- lift (get data "scenarios") ;;
    if negb (isArray scenarios) then ret ScenariosRejected
    else forEach scenarios check_scenario ;; ret Checked.

Definition scenarios_message : string :=
  "Invalid YAML: " ++ dquote ++ "scenarios" ++ dquote
    ++ " missing or not an array.".

(** The list of messages the command reports for [data]: the single message
    of line 133, or the [errors] of line 151.  A [TypeError] raised by a
    check leaves the [try] block without a list. *)
Definition validate (data : value) : result (list string) :=
  match check_document data [] with
  | (_, Ok ScenariosRejected) => Ok [scenarios_message]
  | (errors, Ok Checked) => Ok errors
  | (_, Throw e) => Throw e
  end.

(** What the command shows. *)
Inductive notice : Type :=
| Notice (text : string)
| ParsingErrorNotice (e : exn).

(** Lines 131-155. *)
Definition validate_command (data : value) : notice :=
  match check_document data [] with
  | (_, Ok ScenariosRejected) => Notice scenarios_message
  | (errors, Ok Checked) =>
      if nonempty errors
      then Notice ("YAML validation failed:" ++ newline ++ join newline errors)
      else Notice "YAML is valid!"
  | (_, Throw e) => ParsingErrorNotice e
  end.

End Validator.

(** ** The differ (lines 231-245) *)

Module Differ.

Definition arrow : string := " → ".

Definition path (i : nat) (field : string) : string :=
  "Scenario " ++ string_of_nat i ++ "." ++ field.

(** The line pushed at line 235 for values [a] (current) and [b] (version). *)
Definition change_line (a b : value) (p : string) : string :=
  p ++ ": " ++ interpolate (stringify b) ++ arrow ++ interpolate (stringify a).

(** Lines 233-237; the state is [changes]. *)
Definition compare (a b : value) (p : string) : M unit :=
  when (strict_neq (stringify a) (stringify b)) (push (change_line a b p)).

(** Lines 239-242, the body of [current.scenarios.forEach((s, i) => ...)]. *)
Definition diff_scenario (version : value) (s : value) (i : nat) : M unit :=
  scenarios <- lift (get version "scenarios") ;;
  other <- lift (get_index scenarios i) ;;
  let v := if truthy other then other else VObj [] in
  s_name <- lift (get s "name") ;;
  v_name <- lift (get v "name") ;;
  compare s_name v_name (path i "name") ;;
  s_triggers <- lift (get s "triggers") ;;
  v_triggers <- lift (get v "triggers") ;;
  compare s_triggers v_triggers (path i "triggers") ;;
  s_steps <- lift (get s "steps") ;;
  v_steps <- lift (get v "steps") ;;
  compare s_steps v_steps (path i "steps").

(** Lines 232-243: the run that fills [changes]. *)
Definition collect_changes (current version : value) : M unit :=
  scenarios <- lift (get current "scenarios") ;;
  forEach scenarios (diff_scenario version).

Definition no_differences : string := "No differences found.".

(** Lines 231-245. *)
Definition simpleDiff (current version : value) : result string :=
  match collect_changes current version [] with
  | (changes, Ok _) =>
      Ok (if nonempty changes then join newline changes else no_differences)
  | (_, Throw e) => Throw e
  end.

(** The [changes] array at line 244, when the run reaches it. *)
Definition changes (current version : value) : result (list string) :=
  match collect_changes current version [] with
  | (l, Ok _) => Ok l
  | (_, Throw e) => Throw e
  end.

End Differ.

(** ** The trace formatter (lines 259-273) *)

Module Simulator.

(** Lines 265-266, the body of [s.triggers.forEach((t, j) => ...)]. *)
Definition simulate_trigger (t : value) (j : nat) : M unit :=
  tr <- lift (get t "trigger") ;;
  val <- lift (get tr "value") ;;
  value <-
    (if String.eqb (typeof val) "string"
     then
       tr' <- lift (get t "trigger") ;;
       lift (get tr' "value")
     else
       tr' <- lift (get t "trigger") ;;
       val' <- lift (get tr' "value") ;;
       ret (match stringify val' with
            | Some text => VStr text
            | None => VUndef
            end)) ;;
  tr'' <- lift (get t "trigger") ;;
  ty <- lift (get tr'' "type") ;;
  ty_text <- lift (to_string ty) ;;
  value_text <- lift (to_string value) ;;
  push ("  Trigger " ++ string_of_nat j ++ ": " ++ ty_text
          ++ " -> " ++ value_text).

(** Line 269, the callback of [items.map]. *)
Definition render_item (it : value) : result string :=
  match get it "type" with
  | Ok ty =>
      match to_string ty with
      | Ok ty_text =>
          match get it "id" with
          | Ok id =>
              match to_string id with
              | Ok id_text => Ok (ty_text ++ " (" ++ id_text ++ ")")
              | Throw e => Throw e
              end
          | Throw e => Throw e
          end
      | Throw e => Throw e
      end
  | Throw e => Throw e
  end.

(** Lines 269-270, the body of [s.steps.forEach((st, k) => ...)]. *)
Definition simulate_step (st : value) (k : nat) : M unit :=
  params <- lift (get st "parameters") ;;
  items <- lift (get params "items") ;;
  rendered <- lift (map_array items render_item) ;;
  let items := join ", " rendered in
  ty <- lift (get st "type") ;;
  ty_text <- lift (to_string ty) ;;
  push ("  Step " ++ string_of_nat k ++ ": " ++ ty_text ++ " -> "
          ++ (if String.eqb items "" then "No actions" else items)).

(** Lines 263-271, the body of [data.scenarios.forEach((s, i) => ...)]. *)
Definition simulate_scenario (s : value) (i : nat) : M unit :=
  name <- lift (get s "name") ;;
  name_text <- lift (to_string name) ;;
  push ("Scenario " ++ string_of_nat i ++ ": " ++ name_text) ;;
  triggers <- lift (get s "triggers") ;;
  forEach triggers simulate_trigger ;;
  steps <- lift (get s "steps") ;;
  forEach steps simulate_step.

(** Lines 260-273: the text of the notice, or the exception that leaves the
    callback. *)
Definition simulate (data : value) : result string :=
  if negb (truthy (get_opt (get_opt data "scenarios") "length"))
  then Ok "No scenarios to simulate."
  else
    match (scenarios <- lift (get data "scenarios") ;;
           forEach scenarios simulate_scenario) [] with
    | (simulation, Ok _) =>
        Ok ("Simulation:" ++ newline ++ join newline simulation)
    | (_, Throw e) => Throw e
    end.

End Simulator.

(** ** The error list as §4.1 describes it

    The checks of one scenario, each as the code decides it, laid out in the
    order of §4.1(3): the id error, the name error, the trigger errors in
    trigger order, the step errors in step order; and the scenarios in
    document order. *)

Module ValidatorSpec.

Inductive violation : Type :=
| IdInvalid (i : nat)
| NameInvalid (i : nat)
| TriggersMissing (i : nat)
| TypeInvalid (i j : nat)
| ValueMissing (i j : nat)
| StepsMissing (i : nat)
| StepInvalid (i k : nat).

Definition message (v : violation) : string :=
  match v with
  | IdInvalid i => "Scenario " ++ string_of_nat i ++ ": id invalid"
  | NameInvalid i => "Scenario " ++ string_of_nat i ++ ": name invalid"
  | TriggersMissing i =>
      "Scenario " ++ string_of_nat i ++ ": triggers missing or not an array"
  | TypeInvalid i j =>
      "Scenario " ++ string_of_nat i ++ ", Trigger " ++ string_of_nat j
        ++ ": type invalid"
  | ValueMissing i j =>
      "Scenario " ++ string_of_nat i ++ ", Trigger " ++ string_of_nat j
        ++ ": value missing"
  | StepsMissing i =>
      "Scenario " ++ string_of_nat i ++ ": steps missing or not an array"
  | StepInvalid i k =>
      "Scenario " ++ string_of_nat i ++ ", Step " ++ string_of_nat k
        ++ ": invalid structure"
  end.

Fixpoint flat_mapi_from {A B : Type} (f : nat -> A -> list B) (i : nat)
  (l : list A) : list B :=
  match l with
  | [] => []
  | x :: r => (f i x ++ flat_mapi_from f (S i) r)%list
  end.

Definition flat_mapi {A B : Type} (f : nat -> A -> list B) (l : list A)
  : list B :=
  flat_mapi_from f 0 l.

(** The test [!value || typeof value !== 'string']. *)
Definition not_a_string (v : value) : bool :=
  negb (truthy v) || negb (String.eqb (typeof v) "string").

Definition type_invalid (t : value) : bool :=
  not_a_string (get_opt (get_opt t "trigger") "type").

Definition value_absent (t : value) : bool :=
  match has_property "value" (get_opt t "trigger") with
  | Ok present => negb present
  | Throw _ => true
  end.

Definition step_invalid (st : value) : bool :=
  negb (truthy (get_opt st "type"))
  || negb (truthy (get_opt (get_opt st "parameters") "items"))
  || negb (isArray (get_opt (get_opt st "parameters") "items")).

Definition id_error (i : nat) (s : value) : list violation :=
  if not_a_string (get_opt s "id") then [IdInvalid i] else [].

Definition name_error (i : nat) (s : value) : list violation :=
  if not_a_string (get_opt s "name") then [NameInvalid i] else [].

Definition trigger_violations (i j : nat) (t : value) : list violation :=
  ((if type_invalid t then [TypeInvalid i j] else [])
   ++ (if value_absent t then [ValueMissing i j] else []))%list.

Definition trigger_errors (i : nat) (s : value) : list violation :=
  match get_opt s "triggers" with
  | VArr ts => flat_mapi (trigger_violations i) ts
  | _ => [TriggersMissing i]
  end.

Definition step_violations (i k : nat) (st : value) : list violation :=
  if step_invalid st then [StepInvalid i k] else [].

Definition step_errors (i : nat) (s : value) : list violation :=
  match get_opt s "steps" with
  | VArr sts => flat_mapi (step_violations i) sts
  | _ => [StepsMissing i]
  end.

Definition scenario_violations (i : nat) (s : value) : list violation :=
  (id_error i s ++ name_error i s ++ trigger_errors i s ++ step_errors i s)%list.

Definition ordered_violations (scenarios : list value) : list violation :=
  flat_mapi scenario_violations scenarios.

Definition ordered_errors (scenarios : list value) : list string :=
  map message (ordered_violations scenarios).

(** A value that passes the test of [checkField] for a string field. *)
Definition non_empty_string (v : value) : Prop :=
  exists str, v = VStr str /\ str <> "".

(** ** Entries on which no check raises *)

Definition non_null (v : value) : bool :=
  match v with
  | VUndef => false
  | VNull => false
  | _ => true
  end.

(** The values [in] accepts as its right operand. *)
Definition is_object (v : value) : bool :=
  match v with
  | VArr _ => true
  | VObj _ => true
  | _ => false
  end.

Definition trigger_entry_ok (t : value) : bool :=
  is_object (get_opt t "trigger").

Definition scenario_entry_ok (s : value) : bool :=
  non_null s
  && match get_opt s "triggers" with
     | VArr ts => forallb trigger_entry_ok ts
     | _ => true
     end
  && match get_opt s "steps" with
     | VArr sts => forallb non_null sts
     | _ => true
     end.

Definition entries_ok (data : value) : bool :=
  match get_opt data "scenarios" with
  | VArr ss => forallb scenario_entry_ok ss
  | _ => true
  end.

End ValidatorSpec.

Module DifferSpec.

Import ValidatorSpec.

(** The documents on which [simpleDiff] reads no property of [null] or
    [undefined]: [current.scenarios] is a sequence, and when it has entries
    none of them is null and [version.scenarios] is not null. *)
Definition entries_ok (current version : value) : bool :=
  match get_opt current "scenarios" with
  | VArr [] => true
  | VArr cs => non_null (get_opt version "scenarios") && forallb non_null cs
  | _ => false
  end.

(** [version.scenarios[i] || {}] *)
Definition other_scenario (version : value) (i : nat) : value :=
  let other := get_opt (get_opt version "scenarios") (string_of_nat i) in
  if truthy other then other else VObj [].

Definition fields : list string := ["name"; "triggers"; "steps"].

(** The line for field [f] of scenario [s] at index [i], if the serialized
    values differ. *)
Definition field_change (version : value) (i : nat) (s : value) (f : string)
  : list string :=
  let a := get_opt s f in
  let b := get_opt (other_scenario version i) f in
  if strict_neq (stringify a) (stringify b)
  then [Differ.change_line a b (Differ.path i f)]
  else [].

Definition scenario_changes (version : value) (i : nat) (s : value)
  : list string :=
  (field_change version i s "name"
   ++ field_change version i s "triggers"
   ++ field_change version i s "steps")%list.

Definition expected_changes (current version : value) : list string :=
  match get_opt current "scenarios" with
  | VArr cs => flat_mapi (scenario_changes version) cs
  | _ => []
  end.

(** The difference at scenario [i], field [f], is among the lines that the
    run of the differ returns. *)
Definition reports (current version : value) (i : nat) (f : string) : Prop :=
  exists l line,
    Differ.changes current version = Ok l
    /\ In line l
    /\ String.prefix (Differ.path i f ++ ": ") line = true.

End DifferSpec.

(** ** Sample documents *)

Module Samples.

Definition document (scenarios : list value) : value :=
  VObj [("scenarios", VArr scenarios)].

(** The documents of the example of §8. *)
Definition current_X : value :=
  document [VObj [("name", VStr "X"); ("triggers", VArr [VNum 1]);
                  ("steps", VArr [])]].

Definition previous_Y : value :=
  document [VObj [("name", VStr "Y"); ("triggers", VArr [VNum 1]);
                  ("steps", VArr [])]].

(** One of the templates of lines 174-181. *)
Definition template : value :=
  document
    [VObj [("id", VStr "scenario_1");
           ("name", VStr "New Scenario");
           ("triggers",
            VArr [VObj [("trigger",
                         VObj [("type", VStr "scenario.trigger.voice");
                               ("value", VStr "hello")])]]);
           ("steps",
            VArr [VObj [("type", VStr "scenarios.steps.actions.v2");
                        ("parameters", VObj [("items", VArr [])])]])]].

(** A trigger entry without the [trigger] key. *)
Definition trigger_without_trigger : value :=
  document
    [VObj [("id", VStr "a"); ("name", VStr "b");
           ("triggers", VArr [VObj []]); ("steps", VArr [])]].

(** A document without the [scenarios] key. *)
Definition no_scenarios : value :=
  VObj [("title", VStr "notes")].

(** A scenario whose id is the empty string. *)
Definition empty_id : value :=
  document
    [VObj [("id", VStr ""); ("name", VStr "n");
           ("triggers", VArr []); ("steps", VArr [])]].

(** A trigger without the [value] key and triggers whose [value] is falsy. *)
Definition trigger_values : value :=
  document
    [VObj [("id", VStr "a"); ("name", VStr "b");
           ("triggers",
            VArr [VObj [("trigger", VObj [("type", VStr "t")])];
                  VObj [("trigger", VObj [("type", VStr "t"); ("value", VNull)])];
                  VObj [("trigger", VObj [("type", VStr "t"); ("value", VStr "")])];
                  VObj [("trigger", VObj [("type", VStr "t"); ("value", VNum 0)])]]);
           ("steps", VArr [])]].

(** Two scenarios with one invalid field each. *)
Definition two_invalid : value :=
  document
    [VObj [("id", VNum 7); ("name", VStr "first");
           ("triggers", VArr []); ("steps", VArr [])];
     VObj [("id", VStr "second");
           ("name", VStr "second");
           ("triggers", VArr []);
           ("steps",
            VArr [VObj [("type", VStr "s");
                        ("parameters", VObj [("items", VStr "not-an-array")])]])]].

(** The same scenario with different [id], [icon] and [devices], followed in
    the older document by one more scenario. *)
Definition newer : value :=
  document
    [VObj [("id", VStr "new"); ("name", VStr "Lamp"); ("icon", VStr "sun");
           ("triggers", VArr [VNum 1]); ("steps", VArr [])]].

Definition older : value :=
  document
    [VObj [("id", VStr "old"); ("name", VStr "Lamp");
           ("devices", VArr [VStr "d1"]);
           ("triggers", VArr [VNum 1]); ("steps", VArr [])];
     VObj [("id", VStr "extra"); ("name", VStr "Fan");
           ("triggers", VArr []); ("steps", VArr [])]].

(** Documents with two scenarios and with one. *)
Definition two_scenarios : value :=
  document [VObj [("name", VStr "X")]; VObj [("name", VStr "Z")]].

Definition one_scenario : value :=
  document [VObj [("name", VStr "Y")]].

(** A scenario without the [triggers] key. *)
Definition no_triggers : value :=
  document [VObj [("id", VStr "a"); ("name", VStr "n"); ("steps", VArr [])]].

(** A scenario whose name is the mapping [{toString: 1}]. *)
Definition named_by_a_mapping : value :=
  document
    [VObj [("id", VStr "a"); ("name", VObj [("toString", VNum 1)]);
           ("triggers", VArr []); ("steps", VArr [])]].

(** A step with a null item, and a step whose type is the mapping
    [{toString: 1}]. *)
Definition null_item : value :=
  document
    [VObj [("id", VStr "a"); ("name", VStr "n"); ("triggers", VArr []);
           ("steps",
            VArr [VObj [("type", VStr "s");
                        ("parameters", VObj [("items", VArr [VNull])])]])]].

Definition step_typed_by_a_mapping : value :=
  document
    [VObj [("id", VStr "a"); ("name", VStr "n"); ("triggers", VArr []);
           ("steps",
            VArr [VObj [("type", VObj [("toString", VNum 1)]);
                        ("parameters", VObj [("items", VArr [])])]])]].

End Samples.

Import ValidatorSpec.

(** ** Notes that carry a YAML block (lines 35-90)

    The import, export and versioned-copy commands move a YAML text in and
    out of a Markdown note.  The host's file store is not modelled: a
    command is the function from what it reads (the chosen file, the active
    note, the clock) to what it asks the store to do and the notice it
    shows once the store has done it. *)

Module Notes.

(** [s] with [p] taken off its head, when [p] is a prefix of it. *)
Fixpoint strip_prefix (p s : string) : option string :=
  match p, s with
  | EmptyString, _ => Some s
  | String a p', String b s' =>
      if Ascii.eqb a b then strip_prefix p' s' else None
  | String _ _, EmptyString => None
  end.

Definition fence_open : string := "```yaml" ++ newline.
Definition fence_close : string := newline ++ "```".

(** The rest of the pattern after the opening fence, [([\s\S]*?)\n```],
    tried at the head of [s]: the lazy group first takes nothing, and one
    more character each time the closing fence does not follow. *)
Fixpoint lazy_capture (s : string) : option string :=
  match strip_prefix fence_close s with
  | Some _ => Some EmptyString
  | None =>
      match s with
      | EmptyString => None
      | String c r =>
          match lazy_capture r with
          | Some y => Some (String c y)
          | None => None
          end
      end
  end.

(** The whole pattern tried at the head of [s]. *)
Definition match_here (s : string) : option string :=
  match strip_prefix fence_open s with
  | Some rest => lazy_capture rest
  | None => None
  end.

(** [content.match(/```yaml\n([\s\S]*?)\n```/)], as its group 1: the
    pattern is tried at each position from the left, and the first position
    where it matches gives the result; [None] is the result [null]. *)
Fixpoint yaml_match (content : string) : option string :=
  match match_here content with
  | Some y => Some y
  | None =>
      match content with
      | EmptyString => None
      | String _ r => yaml_match r
      end
  end.

Definition not_dot_or_slash (c : ascii) : bool :=
  negb (Ascii.eqb c "."%char) && negb (Ascii.eqb c "/"%char).

Fixpoint all_chars (p : ascii -> bool) (s : string) : bool :=
  match s with
  | EmptyString => true
  | String c r => p c && all_chars p r
  end.

(** The pattern [\.[^/.]+$] tried at the head of [s]: a dot, then one or
    more characters other than a dot or a slash, up to the end. *)
Definition extension_here (s : string) : bool :=
  match s with
  | String c (String d r) =>
      Ascii.eqb c "."%char && all_chars not_dot_or_slash (String d r)
  | _ => false
  end.

(** [name.replace(/\.[^/.]+$/, '')] (line 44): the first position from the
    left where the pattern matches is cut off with all that follows. *)
Fixpoint strip_extension (name : string) : string :=
  if extension_here name then EmptyString
  else match name with
       | EmptyString => EmptyString
       | String c r => String c (strip_extension r)
       end.

(** The text of a note, as lines 45 and 87 build it. *)
Definition note (title yaml : string) : string :=
  "# " ++ title ++ newline ++ "```yaml" ++ newline ++ yaml ++ newline ++ "```".

(** What a command asks of the host. *)
Inductive request : Type :=
| CreateFolder (path : string)
| CreateFile (path content : string)
| Download (name content : string).

(** The active file, as far as the commands read it. *)
Record file : Type := {
  basename : string;
  extension : string;
  content : string
}.

Definition open_markdown_first : string := "Please open a Markdown file first.".
Definition no_yaml_found : string := "No YAML content found.".

(** Lines 41-46, once a file with name [name] and text [text] is chosen. *)
Definition import_file (name text : string) : list request * string :=
  let fileName := strip_extension name in
  ([CreateFile (fileName ++ ".md") (note fileName text)],
   "Imported " ++ fileName ++ " successfully!").

(** Lines 56-70. *)
Definition export_command (active : option file) : list request * string :=
  match active with
  | None => ([], open_markdown_first)
  | Some f =>
      if negb (String.eqb (extension f) "md") then ([], open_markdown_first)
      else
        match yaml_match (content f) with
        | None => ([], no_yaml_found)
        | Some yaml =>
            ([Download (basename f ++ ".yaml") yaml],
             "Exported " ++ basename f ++ ".yaml successfully!")
        end
  end.

Definition removed_from_timestamp (c : ascii) : bool :=
  Ascii.eqb c ":"%char || Ascii.eqb c "T"%char || Ascii.eqb c "-"%char.

(** [s.replace(/[:T-]/g, '')] *)
Fixpoint remove_separators (s : string) : string :=
  match s with
  | EmptyString => EmptyString
  | String c r =>
      if removed_from_timestamp c then remove_separators r
      else String c (remove_separators r)
  end.

(** Line 85, applied to the text [iso] that [new Date().toISOString()]
    returns. *)
Definition timestamp (iso : string) : string :=
  String.substring 0 14 (remove_separators iso).

(** Lines 78-88; [folder_exists] tells whether the store has the folder
    [versions], [iso] is the clock reading. *)
Definition versioned_copy_command (active : option file)
  (folder_exists : bool) (iso : string) : list request * string :=
  match active with
  | None => ([], open_markdown_first)
  | Some f =>
      if negb (String.eqb (extension f) "md") then ([], open_markdown_first)
      else
        match yaml_match (content f) with
        | None => ([], no_yaml_found)
        | Some yaml =>
            let versionsFolder := "versions" in
            let versionedName := basename f ++ "_" ++ timestamp iso in
            (((if folder_exists then [] else [CreateFolder versionsFolder])
              ++ [CreateFile (versionsFolder ++ "/" ++ versionedName ++ ".md")
                    (note versionedName yaml)])%list,
             "Created versioned copy: " ++ versionedName)
        end
  end.

(** [p] occurs in [s]. *)
Fixpoint occurs (p s : string) : bool :=
  match strip_prefix p s with
  | Some _ => true
  | None =>
      match s with
      | EmptyString => false
      | String _ r => occurs p r
      end
  end.

End Notes.

(** ** Documents by their shape

    What a document must look like to pass the validator, and to be
    simulated, written on the values themselves. *)

Module Shapes.

Import ValidatorSpec.

Definition is_non_empty_string (v : value) : bool :=
  match v with
  | VStr s => negb (String.eqb s "")
  | _ => false
  end.

(** A trigger entry: a mapping whose [trigger] is a mapping with a
    non-empty string for [type] and with the key [value]. *)
Definition trigger_valid (t : value) : bool :=
  match get_opt t "trigger" with
  | VObj m =>
      is_non_empty_string (or_undefined (lookup "type" m))
      && match lookup "value" m with
         | Some _ => true
         | None => false
         end
  | _ => false
  end.

(** A step entry: a truthy [type] and a sequence for [parameters.items]. *)
Definition step_valid (st : value) : bool :=
  truthy (get_opt st "type")
  && isArray (get_opt (get_opt st "parameters") "items").

Definition scenario_valid (s : value) : bool :=
  is_non_empty_string (get_opt s "id")
  && is_non_empty_string (get_opt s "name")
  && match get_opt s "triggers" with
     | VArr ts => forallb trigger_valid ts
     | _ => false
     end
  && match get_opt s "steps" with
     | VArr sts => forallb step_valid sts
     | _ => false
     end.

Definition valid (data : value) : bool :=
  match get_opt data "scenarios" with
  | VArr ss => forallb scenario_valid ss
  | _ => false
  end.

(** The values that a template literal converts to a string: all but a
    mapping with a key [toString], and a sequence that holds, at any depth,
    such a mapping. *)
Fixpoint convertible (v : value) : bool :=
  match v with
  | VArr l => forallb convertible l
  | VObj m =>
      match lookup "toString" m with
      | Some _ => false
      | None => true
      end
  | _ => true
  end.

(** The text of a convertible value. *)
Definition text (v : value) : string :=
  match to_string v with
  | Ok t => t
  | Throw _ => ""
  end.

(** The entries that the trace formatter reads and writes without a
    [TypeError]. *)
Definition trigger_readable (t : value) : bool :=
  non_null (get_opt t "trigger")
  && convertible (get_opt (get_opt t "trigger") "type").

Definition item_readable (it : value) : bool :=
  non_null it
  && convertible (get_opt it "type")
  && convertible (get_opt it "id").

Definition step_readable (st : value) : bool :=
  match get_opt (get_opt st "parameters") "items" with
  | VArr items => forallb item_readable items
  | _ => false
  end
  && convertible (get_opt st "type").

Definition scenario_readable (s : value) : bool :=
  non_null s
  && convertible (get_opt s "name")
  && match get_opt s "triggers" with
     | VArr ts => forallb trigger_readable ts
     | _ => false
     end
  && match get_opt s "steps" with
     | VArr sts => forallb step_readable sts
     | _ => false
     end.

Definition simulable (data : value) : bool :=
  if negb (truthy (get_opt (get_opt data "scenarios") "length")) then true
  else
    match get_opt data "scenarios" with
    | VArr ss => forallb scenario_readable ss
    | _ => false
    end.

(** The lines of the trace. *)
Definition trigger_line (j : nat) (t : value) : string :=
  let val := get_opt (get_opt t "trigger") "value" in
  "  Trigger " ++ string_of_nat j ++ ": "
    ++ text (get_opt (get_opt t "trigger") "type") ++ " -> "
    ++ match val with
       | VStr s => s
       | _ => interpolate (stringify val)
       end.

Definition item_text (it : value) : string :=
  text (get_opt it "type") ++ " (" ++ text (get_opt it "id") ++ ")".

Definition step_line (k : nat) (st : value) : string :=
  "  Step " ++ string_of_nat k ++ ": " ++ text (get_opt st "type")
    ++ " -> "
    ++ match get_opt (get_opt st "parameters") "items" with
       | VArr [] => "No actions"
       | VArr items => join ", " (map item_text items)
       | _ => "No actions"
       end.

Definition scenario_trace (i : nat) (s : value) : list string :=
  ("Scenario " ++ string_of_nat i ++ ": " ++ text (get_opt s "name"))
    :: (match get_opt s "triggers" with
        | VArr ts => flat_mapi (fun j t => [trigger_line j t]) ts
        | _ => []
        end
        ++ match get_opt s "steps" with
           | VArr sts => flat_mapi (fun k st => [step_line k st]) sts
           | _ => []
           end)%list.

Definition trace (scenarios : list value) : list string :=
  flat_mapi scenario_trace scenarios.

(** Every step can be written: its [type] is convertible, and every item
    is an entry that is not null, with a convertible [type] and [id]. *)
Definition steps_writable (data : value) : bool :=
  match get_opt data "scenarios" with
  | VArr ss =>
      forallb
        (fun s =>
           match get_opt s "steps" with
           | VArr sts =>
               forallb
                 (fun st =>
                    match get_opt (get_opt st "parameters") "items" with
                    | VArr items => forallb item_readable items
                    | _ => true
                    end
                    && convertible (get_opt st "type"))
                 sts
           | _ => true
           end)
        ss
  | _ => true
  end.

End Shapes.

(** ** The template generator (lines 168-181) *)

Module Template.

(** Line 170, the default value of the timetable trigger. *)
Definition timetable_default : value :=
  VObj [("condition",
         VObj [("type", VStr "solar");
               ("value",
                VObj [("solar", VStr "sunrise"); ("offset", VNum 3600)])])].

(** An entry of [types], lines 168-171. *)
Record trigger_type : Type := {
  type_name : string;
  type_value : string;
  defaultValue : value
}.

Definition types : list trigger_type :=
  [{| type_name := "Voice";
      type_value := "scenario.trigger.voice";
      defaultValue := VStr "Привет" |};
   {| type_name := "Timetable";
      type_value := "scenario.trigger.timetable";
      defaultValue := timetable_default |}].

(** Lines 174-181, for the entry [t] of [types] and the reading [now] of
    [Date.now()]. *)
Definition template (t : trigger_type) (now : Z) : value :=
  VObj [("scenarios",
         VArr [VObj [("id", VStr ("scenario_" ++ string_of_Z now));
                     ("name", VStr "New Scenario");
                     ("triggers",
                      VArr [VObj [("trigger",
                                   VObj [("type", VStr (type_value t));
                                         ("value", defaultValue t)])]]);
                     ("steps",
                      VArr [VObj [("type", VStr "scenarios.steps.actions.v2");
                                  ("parameters",
                                   VObj [("items", VArr [])])]])]])].

(** Line 183. *)
Definition fileName (t : trigger_type) (now : Z) : string :=
  "Scenario_" ++ type_name t ++ "_" ++ string_of_Z now.

End Template.

(** * Proofs *)

(** ** The examples of §8 and of the source, evaluated *)

(** Numbers as JavaScript writes them: all the digits below 2^53, the
    shortest digits that tell the Number from its neighbours beyond, the
    exponent form from 10^21 on. *)
Example string_of_Z_samples :
  map string_of_Z
    [0; -17; 9007199254740991; 9007199254740993; 18446744073709551616;
     100000000000000000000; 999999999999999999999;
     1000000000000000000000; -1200000000000000000000;
     100000000000000000000000; 123456789012345678901234567890]%Z
  = ["0"; "-17"; "9007199254740991"; "9007199254740992";
     "18446744073709552000"; "100000000000000000000"; "1e+21"; "1e+21";
     "-1.2e+21"; "1e+23"; "1.2345678901234568e+29"].
Proof. vm_compute. reflexivity. Qed.

Example string_of_Z_infinity :
  string_of_Z (2 ^ 1024) = "Infinity"
  /\ stringify (VNum (2 ^ 1024)) = Some "null"
  /\ string_of_Z (2 ^ 1024 - 2 ^ 970 - 1) = "1.7976931348623157e+308".
Proof. vm_compute. repeat split. Qed.

(** Values in a template literal. *)
Example to_string_samples :
  to_string (VObj [("a", VNum 1)]) = Ok "[object Object]"
  /\ to_string (VObj [("valueOf", VNum 1)]) = Ok "[object Object]"
  /\ to_string (VObj [("toString", VNum 1)]) = Throw TypeError
  /\ to_string (VArr [VNum 1; VNull; VArr [VStr "a"; VUndef]; VBool true])
     = Ok "1,,a,,true"
  /\ to_string (VArr [VNum 1; VArr [VObj [("toString", VNull)]]])
     = Throw TypeError.
Proof. repeat split. Qed.

Example simulate_number_name :
  Simulator.simulate
    (Samples.document
       [VObj [("name", VNum 1000000000000000000000);
              ("triggers", VArr []); ("steps", VArr [])]])
  = Ok ("Simulation:" ++ newline ++ "Scenario 0: 1e+21").
Proof. vm_compute. reflexivity. Qed.

Example simulate_named_by_a_mapping :
  Simulator.simulate Samples.named_by_a_mapping = Throw TypeError
  /\ Validator.validate Samples.named_by_a_mapping
     = Ok ["Scenario 0: name invalid"].
Proof. split; reflexivity. Qed.

Example simulate_step_typed_by_a_mapping :
  Simulator.simulate Samples.step_typed_by_a_mapping = Throw TypeError
  /\ Validator.validate_command Samples.step_typed_by_a_mapping
     = Validator.Notice "YAML is valid!".
Proof. split; reflexivity. Qed.

Example validate_empty_document :
  Validator.validate (Samples.document []) = Ok [].
Proof. reflexivity. Qed.

Example validate_template :
  Validator.validate_command Samples.template
  = Validator.Notice "YAML is valid!".
Proof. reflexivity. Qed.

Example validate_trigger_without_value :
  Validator.validate Samples.trigger_values
  = Ok ["Scenario 0, Trigger 0: value missing"].
Proof. reflexivity. Qed.

Example validate_two_invalid :
  Validator.validate_command Samples.two_invalid
  = Validator.Notice
      ("YAML validation failed:" ++ newline
         ++ "Scenario 0: id invalid" ++ newline
         ++ "Scenario 1, Step 0: invalid structure").
Proof. reflexivity. Qed.

Example validate_all_kinds :
  Validator.validate
    (Samples.document
       [VObj [("id", VStr ""); ("name", VNum 3);
              ("triggers",
               VArr [VObj [("trigger", VObj [("type", VStr "t")])];
                     VObj [("trigger", VArr [])]]);
              ("steps",
               VArr [VObj [("type", VStr "s");
                           ("parameters",
                            VObj [("items", VStr "not-an-array")])]])];
        VStr "abc"])
  = Ok ["Scenario 0: id invalid"; "Scenario 0: name invalid";
        "Scenario 0, Trigger 0: value missing";
        "Scenario 0, Trigger 1: type invalid";
        "Scenario 0, Trigger 1: value missing";
        "Scenario 0, Step 0: invalid structure";
        "Scenario 1: id invalid"; "Scenario 1: name invalid";
        "Scenario 1: triggers missing or not an array";
        "Scenario 1: steps missing or not an array"].
Proof. reflexivity. Qed.

Example stringify_mapping :
  stringify
    (VObj [("a", VArr [VNum 1; VNum (-20); VNull; VUndef; VStr "x"]);
           ("b", VUndef); ("c", VBool true)])
  = Some ("{" ++ dquote ++ "a" ++ dquote ++ ":[1,-20,null,null,"
            ++ dquote ++ "x" ++ dquote ++ "]," ++ dquote ++ "c" ++ dquote
            ++ ":true}").
Proof. reflexivity. Qed.

Example stringify_escapes :
  stringify (VStr ("a" ++ dquote ++ newline ++ String "001"%char "b"))
  = Some (dquote ++ "a" ++ backslash ++ dquote ++ backslash ++ "n"
            ++ backslash ++ "u0001b" ++ dquote).
Proof. reflexivity. Qed.

Example diff_template_against_example :
  Differ.changes Samples.current_X Samples.template
  = Ok ["Scenario 0.name: " ++ dquote ++ "New Scenario" ++ dquote ++ " → "
          ++ dquote ++ "X" ++ dquote;
        "Scenario 0.triggers: [{" ++ dquote ++ "trigger" ++ dquote ++ ":{"
          ++ dquote ++ "type" ++ dquote ++ ":" ++ dquote
          ++ "scenario.trigger.voice" ++ dquote ++ "," ++ dquote ++ "value"
          ++ dquote ++ ":" ++ dquote ++ "hello" ++ dquote ++ "}}] → [1]";
        "Scenario 0.steps: [{" ++ dquote ++ "type" ++ dquote ++ ":" ++ dquote
          ++ "scenarios.steps.actions.v2" ++ dquote ++ "," ++ dquote
          ++ "parameters" ++ dquote ++ ":{" ++ dquote ++ "items" ++ dquote
          ++ ":[]}}] → []"].
Proof. reflexivity. Qed.

Example diff_against_fewer_scenarios :
  Differ.simpleDiff Samples.older Samples.newer
  = Ok ("Scenario 1.name: undefined → " ++ dquote ++ "Fan" ++ dquote
          ++ newline ++ "Scenario 1.triggers: undefined → []"
          ++ newline ++ "Scenario 1.steps: undefined → []").
Proof. reflexivity. Qed.

Example simulate_template :
  Simulator.simulate Samples.template
  = Ok ("Simulation:" ++ newline
          ++ "Scenario 0: New Scenario" ++ newline
          ++ "  Trigger 0: scenario.trigger.voice -> hello" ++ newline
          ++ "  Step 0: scenarios.steps.actions.v2 -> No actions").
Proof. reflexivity. Qed.

Example simulate_empty_document :
  Simulator.simulate (Samples.document []) = Ok "No scenarios to simulate.".
Proof. reflexivity. Qed.

(** ** Decimal numerals *)

Lemma string_of_uint_digits (d : uint) :
  all_digits (NilEmpty.string_of_uint d) = true.
Proof.
  induction d; simpl; auto.
Qed.

Lemma string_of_nat_digits (n : nat) : all_digits (string_of_nat n) = true.
Proof.
  apply string_of_uint_digits.
Qed.

Lemma string_of_uint_inj (d d' : uint) :
  NilEmpty.string_of_uint d = NilEmpty.string_of_uint d' -> d = d'.
Proof.
  intros H.
  assert (E : Some d = Some d').
  { rewrite <- (NilEmpty.usu d), <- (NilEmpty.usu d'), H. reflexivity. }
  now injection E.
Qed.

Lemma string_of_nat_inj (n n' : nat) :
  string_of_nat n = string_of_nat n' -> n = n'.
Proof.
  intros H. apply string_of_uint_inj in H.
  now apply DecimalNat.Unsigned.to_uint_inj.
Qed.

Lemma array_index_of_nat (n : nat) : array_index (string_of_nat n) = Some n.
Proof.
  unfold array_index, string_of_nat.
  rewrite NilEmpty.usu, DecimalNat.Unsigned.of_to, String.eqb_refl.
  reflexivity.
Qed.

Lemma string_of_nat_not_length (n : nat) :
  String.eqb (string_of_nat n) "length" = false.
Proof.
  apply String.eqb_neq. intros H.
  pose proof (string_of_nat_digits n) as D. rewrite H in D. discriminate D.
Qed.

(** ** Strings *)

Lemma append_inv_head (s a b : string) : s ++ a = s ++ b -> a = b.
Proof.
  induction s as [|c s IH]; simpl; intros H.
  - exact H.
  - injection H as H. auto.
Qed.

Lemma append_assoc (a b c : string) : (a ++ b) ++ c = a ++ b ++ c.
Proof.
  induction a as [|x a IH]; simpl; [reflexivity | now rewrite IH].
Qed.

(** Two numerals followed by text that does not continue them. *)
Lemma numeral_split (d d' r r' : string) :
  all_digits d = true -> all_digits d' = true ->
  ends_numeral r = true -> ends_numeral r' = true ->
  d ++ r = d' ++ r' -> d = d' /\ r = r'.
Proof.
  revert d'. induction d as [|c d IH]; intros [|c' d'] Hd Hd' Hr Hr' H; simpl in *.
  - auto.
  - subst r. simpl in Hr.
    apply andb_true_iff in Hd' as [Hc _]. rewrite Hc in Hr. discriminate.
  - subst r'. simpl in Hr'.
    apply andb_true_iff in Hd as [Hc _]. rewrite Hc in Hr'. discriminate.
  - injection H as -> H.
    apply andb_true_iff in Hd as [_ Hd].
    apply andb_true_iff in Hd' as [_ Hd'].
    destruct (IH d' Hd Hd' Hr Hr' H) as [-> ->]. auto.
Qed.

Lemma nat_numeral_split (n n' : nat) (r r' : string) :
  ends_numeral r = true -> ends_numeral r' = true ->
  string_of_nat n ++ r = string_of_nat n' ++ r' -> n = n' /\ r = r'.
Proof.
  intros Hr Hr' H.
  destruct (numeral_split _ _ _ _ (string_of_nat_digits n)
              (string_of_nat_digits n') Hr Hr' H) as [E ->].
  split; [now apply string_of_nat_inj | reflexivity].
Qed.

Lemma prefix_append (p s : string) : String.prefix p (p ++ s) = true.
Proof.
  induction p as [|c p IH]; simpl.
  - now destruct s.
  - destruct (ascii_dec c c) as [_|N]; [exact IH | now elim N].
Qed.

Lemma prefix_inv (p s : string) :
  String.prefix p s = true -> exists r, s = p ++ r.
Proof.
  revert s. induction p as [|c p IH]; intros s H.
  - exists s. reflexivity.
  - destruct s as [|c' s]; simpl in H; [discriminate|].
    destruct (ascii_dec c c') as [->|_]; [|discriminate].
    destruct (IH s H) as [r ->]. exists r. reflexivity.
Qed.

(** ** The messages of the validator are pairwise distinct *)

Ltac split_numeral H :=
  apply nat_numeral_split in H; [ | reflexivity | reflexivity ];
  let E := fresh "E" in destruct H as [E H]; try subst.

Lemma message_inj (a b : violation) : message a = message b -> a = b.
Proof.
  destruct a, b; unfold message; intros H;
    apply (append_inv_head "Scenario ") in H;
    split_numeral H;
    try discriminate H;
    try reflexivity;
    apply (append_inv_head ", Trigger ") in H || apply (append_inv_head ", Step ") in H;
    split_numeral H;
    try discriminate H;
    reflexivity.
Qed.

(** ** Property access *)

Lemma get_non_null (v : value) (k : string) :
  non_null v = true -> get v k = Ok (get_opt v k).
Proof.
  intros H. unfold get_opt.
  destruct (get v k) as [x|e] eqn:E; [reflexivity|].
  destruct v; simpl in H, E; try discriminate;
    repeat match type of E with
           | (if ?b then _ else _) = _ => destruct b
           | match ?o with Some _ => _ | None => _ end = _ => destruct o
           end; discriminate.
Qed.

Lemma get_null (v : value) (k : string) :
  non_null v = false -> get v k = Throw TypeError.
Proof.
  destruct v; simpl; intros H; try discriminate; reflexivity.
Qed.

Lemma get_opt_null (v : value) (k : string) :
  non_null v = false -> get_opt v k = VUndef.
Proof.
  intros H. unfold get_opt. now rewrite get_null.
Qed.

Lemma get_opt_non_null (v : value) (k : string) :
  non_null (get_opt v k) = true -> non_null v = true.
Proof.
  destruct (non_null v) eqn:E; [reflexivity|].
  rewrite get_opt_null by exact E. discriminate.
Qed.

Lemma truthy_non_null (v : value) : truthy v = true -> non_null v = true.
Proof.
  destruct v; simpl; auto.
Qed.

Lemma is_object_non_null (v : value) : is_object v = true -> non_null v = true.
Proof.
  destruct v; simpl; auto.
Qed.

Lemma get_index_array (l : list value) (i : nat) :
  get_index (VArr l) i = Ok (nth i l VUndef).
Proof.
  unfold get_index. simpl.
  now rewrite string_of_nat_not_length, array_index_of_nat.
Qed.

(** ** Runs *)

Lemma bind_lift_ok {A B : Type} (a : A) (k : A -> M B) (st : list string) :
  bind (lift (Ok a)) k st = k a st.
Proof. reflexivity. Qed.

Lemma bind_lift_throw {A B : Type} (e : exn) (k : A -> M B)
  (st : list string) :
  bind (lift (Throw e)) k st = (st, Throw e).
Proof. reflexivity. Qed.

Lemma bind_push {B : Type} (m : string) (k : unit -> M B) (st : list string) :
  bind (push m) k st = k tt (st ++ [m])%list.
Proof. reflexivity. Qed.

(** A loop whose body returns on every entry, having pushed [g i x]. *)
Lemma forEach_from_returns (f : value -> nat -> M unit)
  (g : nat -> value -> list string) (l : list value) :
  (forall x i st, In x l -> f x i st = ((st ++ g i x)%list, Ok tt)) ->
  forall i st,
    forEach_from f l i st = ((st ++ flat_mapi_from g i l)%list, Ok tt).
Proof.
  induction l as [|x l IH]; intros H i st; simpl.
  - now rewrite app_nil_r.
  - unfold bind. rewrite H by now left.
    rewrite IH by (intros; apply H; now right).
    now rewrite <- app_assoc.
Qed.

(** A loop whose body returns on the entries that satisfy [ok] and throws on
    the others. *)
Lemma forEach_from_throws (f : value -> nat -> M unit) (ok : value -> bool)
  (l : list value) :
  (forall x i st, In x l -> ok x = true -> exists st', f x i st = (st', Ok tt)) ->
  (forall x i st, In x l -> ok x = false ->
                  exists st', f x i st = (st', Throw TypeError)) ->
  forallb ok l = false ->
  forall i st, exists st', forEach_from f l i st = (st', Throw TypeError).
Proof.
  induction l as [|x l IH]; intros Hok Hbad Hl i st; simpl in *.
  - discriminate.
  - unfold bind. destruct (ok x) eqn:E.
    + destruct (Hok x i st (or_introl eq_refl) E) as [st' ->].
      apply IH; auto.
    + destruct (Hbad x i st (or_introl eq_refl) E) as [st' ->].
      now exists st'.
Qed.

(** A loop that returns ran its body to the end on every entry. *)
Lemma forEach_from_inv (f : value -> nat -> M unit) (l : list value) :
  forall i st st',
    forEach_from f l i st = (st', Ok tt) ->
    forall j x, nth_error l j = Some x ->
                exists st1 st2, f x (i + j) st1 = (st2, Ok tt).
Proof.
  induction l as [|y l IH]; intros i st st' H j x Hj.
  - destruct j; discriminate.
  - simpl in H. unfold bind in H.
    destruct (f y i st) as [st1 [[]|e]] eqn:E; [|discriminate].
    destruct j as [|j]; simpl in Hj.
    + injection Hj as <-. exists st, st1. now rewrite Nat.add_0_r.
    + destruct (IH _ _ _ H j x Hj) as (s1 & s2 & Hf).
      exists s1, s2. now rewrite Nat.add_succ_r.
Qed.

Lemma flat_mapi_from_map {A B C : Type} (h : B -> C) (g : nat -> A -> list B)
  (l : list A) :
  forall i,
    map h (flat_mapi_from g i l) = flat_mapi_from (fun j x => map h (g j x)) i l.
Proof.
  induction l as [|x l IH]; intros i; simpl.
  - reflexivity.
  - now rewrite map_app, IH.
Qed.

Lemma in_flat_mapi_from {A B : Type} (g : nat -> A -> list B) (l : list A)
  (b : B) :
  forall i,
    In b (flat_mapi_from g i l) <->
    exists j x, nth_error l j = Some x /\ In b (g (i + j) x).
Proof.
  induction l as [|y l IH]; intros i; simpl.
  - split; [easy|]. intros (j & x & H & _). destruct j; discriminate.
  - rewrite in_app_iff, IH. split.
    + intros [H|(j & x & Hj & H)].
      * exists 0, y. now rewrite Nat.add_0_r.
      * exists (S j), x. now rewrite Nat.add_succ_r.
    + intros (j & x & Hj & H). destruct j as [|j]; simpl in Hj.
      * injection Hj as <-. left. now rewrite Nat.add_0_r in H.
      * right. exists j, x. now rewrite Nat.add_succ_r in H.
Qed.

Ltac run := cbv beta iota delta [bind lift ret when push push_all].

Lemma checkField_message (label : string) (v : value) :
  Validator.checkField label v "string"
  = if not_a_string v then Some (label ++ " invalid") else None.
Proof. reflexivity. Qed.

Lemma check_trigger_returns (i : nat) (t : value) (j : nat) (st : list string) :
  trigger_entry_ok t = true ->
  Validator.check_trigger i t j st
  = ((st ++ map message (trigger_violations i j t))%list, Ok tt).
Proof.
  unfold trigger_entry_ok. intros Htr.
  pose proof (is_object_non_null _ Htr) as Hn.
  pose proof (get_opt_non_null _ _ Hn) as Ht.
  unfold Validator.check_trigger, trigger_violations, type_invalid,
    value_absent, not_a_string.
  rewrite !(get_non_null t "trigger" Ht). run.
  rewrite !(get_non_null _ "type" Hn).
  assert (Hp : exists b, has_property "value" (get_opt t "trigger") = Ok b).
  { destruct (get_opt t "trigger"); try discriminate Htr; simpl; eauto. }
  destruct Hp as [b ->].
  destruct (truthy (get_opt (get_opt t "trigger") "type")); cbn [negb orb];
    [destruct (String.eqb (typeof (get_opt (get_opt t "trigger") "type")) "string")|];
    destruct b; cbn [negb map app]; rewrite <- ?app_assoc, ?app_nil_r; reflexivity.
Qed.

Lemma check_trigger_throws (i : nat) (t : value) (j : nat) (st : list string) :
  trigger_entry_ok t = false ->
  exists st', Validator.check_trigger i t j st = (st', Throw TypeError).
Proof.
  unfold trigger_entry_ok. intros Htr.
  unfold Validator.check_trigger.
  destruct (non_null t) eqn:Ht.
  - rewrite !(get_non_null t "trigger" Ht). run.
    assert (Hp : has_property "value" (get_opt t "trigger") = Throw TypeError).
    { destruct (get_opt t "trigger"); try discriminate Htr; reflexivity. }
    assert (Hty : truthy (get_opt (get_opt t "trigger") "type") = false).
    { destruct (get_opt t "trigger"); try discriminate Htr; reflexivity. }
    rewrite Hp, Hty. cbn [negb]. eauto.
  - rewrite !(get_null t "trigger" Ht). run. eauto.
Qed.

Lemma check_step_returns (i : nat) (x : value) (k : nat) (st : list string) :
  non_null x = true ->
  Validator.check_step i x k st
  = ((st ++ map message (step_violations i k x))%list, Ok tt).
Proof.
  intros Hx. unfold Validator.check_step, step_violations, step_invalid.
  rewrite !(get_non_null x _ Hx). run.
  destruct (truthy (get_opt x "type")); cbn [negb orb];
    [|now rewrite <- ?app_assoc, ?app_nil_r].
  destruct (truthy (get_opt (get_opt x "parameters") "items")) eqn:E; cbn [negb orb];
    [|now rewrite <- ?app_assoc, ?app_nil_r].
  rewrite (get_non_null (get_opt x "parameters") "items")
    by (apply get_opt_non_null with (k := "items"); now apply truthy_non_null).
  destruct (isArray (get_opt (get_opt x "parameters") "items")); cbn [negb map];
    now rewrite <- ?app_assoc, ?app_nil_r.
Qed.

Lemma check_step_throws (i : nat) (x : value) (k : nat) (st : list string) :
  non_null x = false ->
  exists st', Validator.check_step i x k st = (st', Throw TypeError).
Proof.
  intros Hx. unfold Validator.check_step.
  rewrite !(get_null x _ Hx). run. eauto.
Qed.

Lemma check_triggers_returns (i : nat) (ts : list value) (st : list string) :
  forallb trigger_entry_ok ts = true ->
  forEach (VArr ts) (Validator.check_trigger i) st
  = ((st ++ map message (flat_mapi (trigger_violations i) ts))%list, Ok tt).
Proof.
  intros H. unfold forEach, flat_mapi.
  rewrite flat_mapi_from_map.
  apply forEach_from_returns with
    (g := fun j t => map message (trigger_violations i j t)).
  intros x j st' Hx. apply check_trigger_returns.
  rewrite forallb_forall in H. now apply H.
Qed.

Lemma check_triggers_throws (i : nat) (ts : list value) (st : list string) :
  forallb trigger_entry_ok ts = false ->
  exists st', forEach (VArr ts) (Validator.check_trigger i) st
              = (st', Throw TypeError).
Proof.
  intros H. unfold forEach.
  apply forEach_from_throws with (ok := trigger_entry_ok); [| |exact H].
  - intros x j st' _ Hx. rewrite check_trigger_returns by exact Hx. eauto.
  - intros x j st' _ Hx. now apply check_trigger_throws.
Qed.

Lemma check_steps_returns (i : nat) (sts : list value) (st : list string) :
  forallb non_null sts = true ->
  forEach (VArr sts) (Validator.check_step i) st
  = ((st ++ map message (flat_mapi (step_violations i) sts))%list, Ok tt).
Proof.
  intros H. unfold forEach, flat_mapi.
  rewrite flat_mapi_from_map.
  apply forEach_from_returns with
    (g := fun k x => map message (step_violations i k x)).
  intros x k st' Hx. apply check_step_returns.
  rewrite forallb_forall in H. now apply H.
Qed.

Lemma check_steps_throws (i : nat) (sts : list value) (st : list string) :
  forallb non_null sts = false ->
  exists st', forEach (VArr sts) (Validator.check_step i) st
              = (st', Throw TypeError).
Proof.
  intros H. unfold forEach.
  apply forEach_from_throws with (ok := non_null); [| |exact H].
  - intros x k st' _ Hx. rewrite check_step_returns by exact Hx. eauto.
  - intros x k st' _ Hx. now apply check_step_throws.
Qed.

Lemma push_fields (i : nat) (s : value) (l : list string) :
  (l ++ filter_Boolean
     [Validator.checkField ("Scenario " ++ string_of_nat i ++ ": id")
        (get_opt s "id") "string";
      Validator.checkField ("Scenario " ++ string_of_nat i ++ ": name")
        (get_opt s "name") "string"])%list
  = (l ++ map message (id_error i s ++ name_error i s))%list.
Proof.
  rewrite !checkField_message. unfold id_error, name_error. f_equal.
  destruct (not_a_string (get_opt s "id")), (not_a_string (get_opt s "name"));
    cbn [map app filter_Boolean message]; rewrite ?append_assoc; reflexivity.
Qed.

Lemma check_scenario_returns (s : value) (i : nat) (st : list string) :
  scenario_entry_ok s = true ->
  Validator.check_scenario s i st
  = ((st ++ map message (scenario_violations i s))%list, Ok tt).
Proof.
  unfold scenario_entry_ok. intros H.
  apply andb_true_iff in H as [H Hst]. apply andb_true_iff in H as [Hs Htr].
  unfold Validator.check_scenario, scenario_violations, trigger_errors,
    step_errors.
  rewrite !(get_non_null s _ Hs). run. rewrite push_fields.
  rewrite (app_assoc (id_error i s)), !map_app, !app_assoc.
  generalize (st ++ map message (id_error i s ++ name_error i s))%list as l.
  intros l.
  destruct (get_opt s "triggers"); cbn [truthy isArray negb orb];
    rewrite ?orb_true_r; cbv beta iota;
    rewrite ?check_triggers_returns by exact Htr;
    destruct (get_opt s "steps"); cbn [truthy isArray negb orb];
    rewrite ?orb_true_r; cbv beta iota;
    rewrite ?check_steps_returns by exact Hst; reflexivity.
Qed.

Lemma check_scenario_throws (s : value) (i : nat) (st : list string) :
  scenario_entry_ok s = false ->
  exists st', Validator.check_scenario s i st = (st', Throw TypeError).
Proof.
  unfold scenario_entry_ok. intros H.
  unfold Validator.check_scenario.
  destruct (non_null s) eqn:Hs; [|rewrite !(get_null s _ Hs); run; eauto].
  rewrite !(get_non_null s _ Hs). run. cbn [andb] in H.
  destruct (get_opt s "triggers") as [| | | | |ts|]; cbn [truthy isArray negb orb];
    rewrite ?orb_true_r; cbv beta iota;
    try (destruct (forallb trigger_entry_ok ts) eqn:Hts;
         [rewrite check_triggers_returns by exact Hts
         |destruct (check_triggers_throws i ts
                      (st ++ filter_Boolean
                         [Validator.checkField ("Scenario " ++ string_of_nat i ++ ": id")
                            (get_opt s "id") "string";
                          Validator.checkField ("Scenario " ++ string_of_nat i ++ ": name")
                            (get_opt s "name") "string"])%list Hts) as [st' ->];
          eauto]);
    cbn [andb] in H;
    (destruct (get_opt s "steps") as [| | | | |sts|]; try discriminate H;
     cbn [truthy isArray negb orb]; cbv beta iota;
     apply check_steps_throws; exact H).
Qed.
Lemma check_document_array (data : value) (ss : list value) (st : list string) :
  get_opt data "scenarios" = VArr ss ->
  Validator.check_document data st
  = bind (forEach (VArr ss) Validator.check_scenario)
      (fun _ => ret Validator.Checked) st.
Proof.
  intros H. unfold Validator.check_document.
  assert (Hd : non_null data = true).
  { apply get_opt_non_null with (k := "scenarios"). now rewrite H. }
  rewrite (get_non_null data _ Hd), H. reflexivity.
Qed.

Lemma check_document_rejects (data : value) (st : list string) :
  isArray (get_opt data "scenarios") = false ->
  Validator.check_document data st = (st, Ok Validator.ScenariosRejected).
Proof.
  intros H. unfold Validator.check_document.
  destruct (truthy (get_opt data "scenarios")) eqn:Et; [|reflexivity].
  cbn [negb].
  rewrite get_non_null
    by (apply get_opt_non_null with (k := "scenarios"); now apply truthy_non_null).
  run. now rewrite H.
Qed.

Lemma check_scenarios_returns (ss : list value) (st : list string) :
  forallb scenario_entry_ok ss = true ->
  forEach (VArr ss) Validator.check_scenario st
  = ((st ++ ordered_errors ss)%list, Ok tt).
Proof.
  intros H. unfold forEach, ordered_errors, ordered_violations, flat_mapi.
  rewrite flat_mapi_from_map.
  apply forEach_from_returns with
    (g := fun i s => map message (scenario_violations i s)).
  intros s i st' Hs. apply check_scenario_returns.
  rewrite forallb_forall in H. now apply H.
Qed.

Lemma check_scenarios_throws (ss : list value) (st : list string) :
  forallb scenario_entry_ok ss = false ->
  exists st', forEach (VArr ss) Validator.check_scenario st
              = (st', Throw TypeError).
Proof.
  intros H. unfold forEach.
  apply forEach_from_throws with (ok := scenario_entry_ok); [| |exact H].
  - intros s i st' _ Hs. rewrite check_scenario_returns by exact Hs. eauto.
  - intros s i st' _ Hs. now apply check_scenario_throws.
Qed.

Lemma validate_returns (data : value) (ss : list value) :
  get_opt data "scenarios" = VArr ss ->
  forallb scenario_entry_ok ss = true ->
  Validator.validate data = Ok (ordered_errors ss).
Proof.
  intros Hd Hss. unfold Validator.validate.
  rewrite (check_document_array data ss [] Hd). unfold bind.
  now rewrite check_scenarios_returns.
Qed.

Lemma validate_throws (data : value) (ss : list value) :
  get_opt data "scenarios" = VArr ss ->
  forallb scenario_entry_ok ss = false ->
  Validator.validate data = Throw TypeError.
Proof.
  intros Hd Hss. unfold Validator.validate.
  rewrite (check_document_array data ss [] Hd). unfold bind.
  destruct (check_scenarios_throws ss [] Hss) as [st' ->]. reflexivity.
Qed.

Lemma validate_rejects (data : value) :
  isArray (get_opt data "scenarios") = false ->
  Validator.validate data = Ok [Validator.scenarios_message].
Proof.
  intros H. unfold Validator.validate. now rewrite check_document_rejects.
Qed.

(** The validator returns exactly on the documents whose entries are read
    without a [TypeError]. *)
Lemma validate_returns_iff (data : value) :
  (exists errs, Validator.validate data = Ok errs) <-> ValidatorSpec.entries_ok data = true.
Proof.
  unfold ValidatorSpec.entries_ok.
  destruct (get_opt data "scenarios") as [| | | | |ss|] eqn:E;
    try (split; [reflexivity|]; intros _; eexists; apply validate_rejects;
         now rewrite E).
  destruct (forallb scenario_entry_ok ss) eqn:Hss.
  - split; [reflexivity|]. intros _. eexists. now apply (validate_returns data ss).
  - split; [|discriminate]. intros [errs H].
    rewrite (validate_throws data ss E Hss) in H. discriminate.
Qed.

Lemma validate_inv (data : value) (ss : list value) (errs : list string) :
  get_opt data "scenarios" = VArr ss ->
  Validator.validate data = Ok errs ->
  forallb scenario_entry_ok ss = true /\ errs = ordered_errors ss.
Proof.
  intros Hd H. destruct (forallb scenario_entry_ok ss) eqn:Hss.
  - rewrite (validate_returns data ss Hd Hss) in H. injection H as <-. auto.
  - rewrite (validate_throws data ss Hd Hss) in H. discriminate.
Qed.
(** ** Which violations a scenario contributes *)

Lemma in_message_ordered_errors (v : violation) (ss : list value) :
  In (message v) (ordered_errors ss) <->
  exists i s, nth_error ss i = Some s /\ In v (scenario_violations i s).
Proof.
  unfold ordered_errors, ordered_violations, flat_mapi.
  rewrite <- (in_flat_mapi_from scenario_violations ss v 0).
  split.
  - intros H. apply in_map_iff in H as (w & E & H).
    apply message_inj in E. now subst.
  - apply in_map.
Qed.

Ltac in_cases H :=
  repeat match type of H with
         | In _ (_ ++ _)%list => apply in_app_or in H as [H|H]
         | In _ (if ?b then _ else _) => destruct b eqn:?
         | In _ [] => destruct H
         | In _ [_] => destruct H as [H|[]]
         end.

Lemma in_trigger_violations (v : violation) (i j : nat) (t : value) :
  In v (trigger_violations i j t) ->
  (v = TypeInvalid i j /\ type_invalid t = true)
  \/ (v = ValueMissing i j /\ value_absent t = true).
Proof.
  unfold trigger_violations. intros H. in_cases H; subst; auto.
Qed.

Lemma in_trigger_errors (v : violation) (i : nat) (s : value) :
  In v (trigger_errors i s) ->
  v = TriggersMissing i
  \/ exists ts j t, get_opt s "triggers" = VArr ts /\ nth_error ts j = Some t
                    /\ In v (trigger_violations i j t).
Proof.
  unfold trigger_errors, flat_mapi. intros H.
  destruct (get_opt s "triggers") as [| | | | |ts|];
    try (destruct H as [H|[]]; now left).
  right. apply in_flat_mapi_from in H as (j & t & Hj & H).
  exists ts, j, t. auto.
Qed.

Lemma in_step_errors (v : violation) (i : nat) (s : value) :
  In v (step_errors i s) ->
  v = StepsMissing i \/ exists k, v = StepInvalid i k.
Proof.
  unfold step_errors, flat_mapi. intros H.
  destruct (get_opt s "steps") as [| | | | |sts|];
    try (destruct H as [H|[]]; now left).
  right. apply in_flat_mapi_from in H as (k & x & _ & H).
  unfold step_violations in H. in_cases H. eauto.
Qed.

Lemma in_scenario_violations_id (i i' : nat) (s : value) :
  In (IdInvalid i) (scenario_violations i' s) <->
  i = i' /\ not_a_string (get_opt s "id") = true.
Proof.
  unfold scenario_violations. split.
  - intros H. apply in_app_or in H as [H|H].
    { unfold id_error in H. in_cases H. injection H as <-. auto. }
    apply in_app_or in H as [H|H].
    { unfold name_error in H. in_cases H. discriminate. }
    apply in_app_or in H as [H|H].
    { apply in_trigger_errors in H as [H|(ts & j & t & _ & _ & H)];
        [discriminate|].
      apply in_trigger_violations in H as [[H _]|[H _]]; discriminate. }
    apply in_step_errors in H as [H|[k H]]; discriminate.
  - intros [<- H]. apply in_or_app. left. unfold id_error. rewrite H. now left.
Qed.

Lemma in_scenario_violations_name (i i' : nat) (s : value) :
  In (NameInvalid i) (scenario_violations i' s) <->
  i = i' /\ not_a_string (get_opt s "name") = true.
Proof.
  unfold scenario_violations. split.
  - intros H. apply in_app_or in H as [H|H].
    { unfold id_error in H. in_cases H. discriminate. }
    apply in_app_or in H as [H|H].
    { unfold name_error in H. in_cases H. injection H as <-. auto. }
    apply in_app_or in H as [H|H].
    { apply in_trigger_errors in H as [H|(ts & j & t & _ & _ & H)];
        [discriminate|].
      apply in_trigger_violations in H as [[H _]|[H _]]; discriminate. }
    apply in_step_errors in H as [H|[k H]]; discriminate.
  - intros [<- H]. apply in_or_app. right. apply in_or_app. left.
    unfold name_error. rewrite H. now left.
Qed.

Lemma in_scenario_violations_value (i j i' : nat) (s : value) :
  In (ValueMissing i j) (scenario_violations i' s) <->
  i = i' /\ exists ts t, get_opt s "triggers" = VArr ts
                         /\ nth_error ts j = Some t /\ value_absent t = true.
Proof.
  unfold scenario_violations. split.
  - intros H. apply in_app_or in H as [H|H].
    { unfold id_error in H. in_cases H. discriminate. }
    apply in_app_or in H as [H|H].
    { unfold name_error in H. in_cases H. discriminate. }
    apply in_app_or in H as [H|H].
    { apply in_trigger_errors in H as [H|(ts & j' & t & Hts & Hj & H)];
        [discriminate|].
      apply in_trigger_violations in H as [[H _]|[H Hv]]; [discriminate|].
      injection H as <- <-. split; [reflexivity|]. exists ts, t. auto. }
    apply in_step_errors in H as [H|[k H]]; discriminate.
  - intros [<- (ts & t & Hts & Hj & Hv)].
    apply in_or_app. right. apply in_or_app. right. apply in_or_app. left.
    unfold trigger_errors, flat_mapi. rewrite Hts.
    apply in_flat_mapi_from. exists j, t. split; [exact Hj|].
    unfold trigger_violations. apply in_or_app. right. rewrite Hv. now left.
Qed.

Lemma not_a_string_spec (v : value) :
  not_a_string v = false <-> exists str, v = VStr str /\ str <> "".
Proof.
  unfold not_a_string. split.
  - destruct v; simpl; try discriminate;
      try (rewrite orb_true_r; discriminate).
    rewrite orb_false_r. intros H. apply negb_false_iff, negb_true_iff in H.
    apply String.eqb_neq in H. eauto.
  - intros (str & -> & H). simpl. rewrite orb_false_r.
    apply negb_false_iff, negb_true_iff. now apply String.eqb_neq.
Qed.
(** ** What a run cut short by an exception has pushed *)

Lemma runs_within_returns {A : Type} (c : M A) (g : list string) (a : A) :
  (forall st, c st = ((st ++ g)%list, Ok a)) -> runs_within c g.
Proof.
  intros H st. exists g, [], (Ok a). rewrite app_nil_r. auto.
Qed.

Lemma runs_within_throws {A : Type} (c : M A) (g : list string) :
  (forall st, c st = (st, Throw TypeError)) -> runs_within c g.
Proof.
  intros H st. exists [], g, (Throw TypeError). rewrite app_nil_r.
  repeat split; auto. discriminate.
Qed.

Lemma runs_within_bind {A B : Type} (c : M A) (k : A -> M B)
  (g1 g2 : list string) :
  runs_within c g1 -> (forall a, runs_within (k a) g2) ->
  runs_within (bind c k) (g1 ++ g2)%list.
Proof.
  intros Hc Hk st. unfold bind.
  destruct (Hc st) as (p1 & q1 & r1 & E1 & -> & Hq1). rewrite E1.
  destruct r1 as [a|e].
  - rewrite (Hq1 a eq_refl), app_nil_r.
    destruct (Hk a (st ++ p1)%list) as (p2 & q2 & r2 & E2 & -> & Hq2).
    rewrite E2. exists (p1 ++ p2)%list, q2, r2.
    now rewrite !app_assoc.
  - exists p1, (q1 ++ g2)%list, (Throw e).
    rewrite app_assoc. repeat split; auto. discriminate.
Qed.

Lemma runs_within_forEach_from (f : value -> nat -> M unit)
  (g : nat -> value -> list string) (l : list value) :
  (forall x i, runs_within (f x i) (g i x)) ->
  forall i, runs_within (forEach_from f l i) (flat_mapi_from g i l).
Proof.
  intros H. induction l as [|x l IH]; intros i; simpl.
  - now apply runs_within_returns with tt; intros st; rewrite app_nil_r.
  - apply runs_within_bind; [apply H | intros _; apply IH].
Qed.

Lemma check_trigger_within (i : nat) (t : value) (j : nat) :
  runs_within (Validator.check_trigger i t j)
    (map message (trigger_violations i j t)).
Proof.
  destruct (trigger_entry_ok t) eqn:Hok.
  - apply runs_within_returns with tt. intros st.
    now apply check_trigger_returns.
  - unfold trigger_entry_ok in Hok. intros st.
    unfold Validator.check_trigger.
    destruct (non_null t) eqn:Ht.
    + rewrite !(get_non_null t "trigger" Ht). run.
      assert (Hp : has_property "value" (get_opt t "trigger") = Throw TypeError).
      { destruct (get_opt t "trigger"); try discriminate Hok; reflexivity. }
      assert (Hty : get_opt (get_opt t "trigger") "type" = VUndef).
      { destruct (get_opt t "trigger"); try discriminate Hok; reflexivity. }
      rewrite Hp, Hty. cbn [truthy negb].
      unfold trigger_violations, type_invalid, value_absent.
      rewrite Hp, Hty. cbn [not_a_string truthy negb orb map app message].
      eexists _, _, _. split; [reflexivity|]. split; [reflexivity|].
      discriminate.
    + rewrite !(get_null t "trigger" Ht). run.
      exists [], (map message (trigger_violations i j t)), (Throw TypeError).
      rewrite app_nil_r. repeat split. discriminate.
Qed.

Lemma check_step_within (i : nat) (x : value) (k : nat) :
  runs_within (Validator.check_step i x k)
    (map message (step_violations i k x)).
Proof.
  destruct (non_null x) eqn:Hx.
  - apply runs_within_returns with tt. intros st.
    now apply check_step_returns.
  - apply runs_within_throws. intros st.
    unfold Validator.check_step. now rewrite !(get_null x _ Hx).
Qed.

Lemma runs_within_ext {A : Type} (c c' : M A) (g : list string) :
  (forall st, c st = c' st) -> runs_within c' g -> runs_within c g.
Proof.
  intros E H st. rewrite E. apply H.
Qed.

Lemma check_triggers_within (i : nat) (s : value) :
  runs_within
    (if negb (truthy (get_opt s "triggers"))
        || negb (isArray (get_opt s "triggers"))
     then push ("Scenario " ++ string_of_nat i
                  ++ ": triggers missing or not an array")
     else forEach (get_opt s "triggers") (Validator.check_trigger i))
    (map message (trigger_errors i s)).
Proof.
  unfold trigger_errors.
  destruct (get_opt s "triggers") as [| | | | |ts|];
    cbn [truthy isArray negb orb]; rewrite ?orb_true_r;
    try (apply runs_within_returns with tt; reflexivity).
  unfold forEach, flat_mapi. rewrite flat_mapi_from_map.
  apply runs_within_forEach_from. intros t j. apply check_trigger_within.
Qed.

Lemma check_steps_within (i : nat) (s : value) :
  runs_within
    (if negb (truthy (get_opt s "steps")) || negb (isArray (get_opt s "steps"))
     then push ("Scenario " ++ string_of_nat i
                  ++ ": steps missing or not an array")
     else forEach (get_opt s "steps") (Validator.check_step i))
    (map message (step_errors i s)).
Proof.
  unfold step_errors.
  destruct (get_opt s "steps") as [| | | | |sts|];
    cbn [truthy isArray negb orb]; rewrite ?orb_true_r;
    try (apply runs_within_returns with tt; reflexivity).
  unfold forEach, flat_mapi. rewrite flat_mapi_from_map.
  apply runs_within_forEach_from. intros x k. apply check_step_within.
Qed.

Lemma check_scenario_within (s : value) (i : nat) :
  runs_within (Validator.check_scenario s i)
    (map message (scenario_violations i s)).
Proof.
  destruct (non_null s) eqn:Hs.
  - apply runs_within_ext with
      (c' := bind
               (push_all
                  (filter_Boolean
                     [Validator.checkField
                        ("Scenario " ++ string_of_nat i ++ ": id")
                        (get_opt s "id") "string";
                      Validator.checkField
                        ("Scenario " ++ string_of_nat i ++ ": name")
                        (get_opt s "name") "string"]))
               (fun _ =>
                  bind
                    (if negb (truthy (get_opt s "triggers"))
                        || negb (isArray (get_opt s "triggers"))
                     then push ("Scenario " ++ string_of_nat i
                                  ++ ": triggers missing or not an array")
                     else forEach (get_opt s "triggers")
                            (Validator.check_trigger i))
                    (fun _ =>
                       if negb (truthy (get_opt s "steps"))
                          || negb (isArray (get_opt s "steps"))
                       then push ("Scenario " ++ string_of_nat i
                                    ++ ": steps missing or not an array")
                       else forEach (get_opt s "steps")
                              (Validator.check_step i)))).
    + intros st. unfold Validator.check_scenario.
      rewrite !(get_non_null s _ Hs). run.
      destruct (negb (truthy (get_opt s "triggers"))
                || negb (isArray (get_opt s "triggers")));
        destruct (negb (truthy (get_opt s "steps"))
                  || negb (isArray (get_opt s "steps")));
        reflexivity.
    + unfold scenario_violations.
      rewrite (app_assoc (id_error i s)), map_app, (map_app _ (trigger_errors i s)).
      apply runs_within_bind.
      * apply runs_within_returns with tt. intros st. unfold push_all.
        now rewrite push_fields.
      * intros _. apply runs_within_bind; [apply check_triggers_within|].
        intros _. apply check_steps_within.
  - apply runs_within_throws. intros st.
    unfold Validator.check_scenario. now rewrite !(get_null s _ Hs).
Qed.

Lemma check_document_within (data : value) (ss : list value) :
  get_opt data "scenarios" = VArr ss ->
  runs_within (Validator.check_document data) (ordered_errors ss).
Proof.
  intros Hd.
  apply runs_within_ext with
    (c' := bind (forEach (VArr ss) Validator.check_scenario)
             (fun _ => ret Validator.Checked)).
  - intros st. now apply check_document_array.
  - rewrite <- (app_nil_r (ordered_errors ss)).
    apply runs_within_bind.
    + unfold ordered_errors, ordered_violations, flat_mapi, forEach.
      rewrite flat_mapi_from_map.
      apply runs_within_forEach_from. intros s i. apply check_scenario_within.
    + intros _. apply runs_within_returns with Validator.Checked.
      intros st. unfold ret. now rewrite app_nil_r.
Qed.

(** * The claims about the validator *)

(** C5. When [scenarios] is absent from the document (it then reads as
    [undefined]), or is not a sequence, the validator command reports
    exactly one message, the text of line 133: the words [Invalid YAML:],
    the word [scenarios] between double quotes (character 34), and
    [missing or not an array.] with its full stop.  The run ends at the
    early return of that line with nothing pushed to [errors]: no scenario
    was checked.  As a list of errors the result is that one text. *)
Theorem C5_scenarios_absent_or_not_sequence (data : value) :
  isArray (get_opt data "scenarios") = false ->
  Validator.validate_command data
  = Validator.Notice
      ("Invalid YAML: "
         ++ String "034" ("scenarios"
                            ++ String "034" " missing or not an array."))
  /\ Validator.check_document data [] = ([], Ok Validator.ScenariosRejected)
  /\ Validator.validate data
     = Ok ["Invalid YAML: "
             ++ String "034" ("scenarios"
                                ++ String "034" " missing or not an array.")].
Proof.
  intros H. pose proof (check_document_rejects data [] H) as E.
  unfold Validator.validate_command, Validator.validate.
  rewrite E. repeat split.
Qed.

Lemma C5_witness :
  Validator.validate_command Samples.no_scenarios
  = Validator.Notice
      ("Invalid YAML: "
         ++ String "034" ("scenarios"
                            ++ String "034" " missing or not an array."))
  /\ Validator.validate_command (VObj [("scenarios", VStr "none")])
     = Validator.Notice
         ("Invalid YAML: "
            ++ String "034" ("scenarios"
                               ++ String "034" " missing or not an array."))
  /\ Validator.check_document VUndef []
     = ([], Ok Validator.ScenariosRejected).
Proof.
  split; [|split].
  - exact (proj1 (C5_scenarios_absent_or_not_sequence Samples.no_scenarios
                    eq_refl)).
  - exact (proj1 (C5_scenarios_absent_or_not_sequence
                    (VObj [("scenarios", VStr "none")]) eq_refl)).
  - exact (proj1 (proj2 (C5_scenarios_absent_or_not_sequence VUndef
                           eq_refl))).
Defined.

(** C5, as stated, fails on the text of the error: for a document without
    the [scenarios] key the one message is the text of line 133, which
    begins with [Invalid YAML:], quotes the word [scenarios] and ends with
    a full stop; it is not [scenarios missing or not an array]. *)
Lemma C5_counterexample :
  isArray (get_opt Samples.no_scenarios "scenarios") = false
  /\ Validator.validate_command Samples.no_scenarios
     = Validator.Notice
         ("Invalid YAML: "
            ++ String "034" ("scenarios"
                               ++ String "034" " missing or not an array."))
  /\ Validator.validate_command Samples.no_scenarios
     <> Validator.Notice "scenarios missing or not an array"
  /\ Validator.validate Samples.no_scenarios
     <> Ok ["scenarios missing or not an array"].
Proof.
  split; [reflexivity|]. split; [reflexivity|]. split; discriminate.
Qed.

(** C4. For a document whose [scenarios] is a sequence, the list the
    validator returns is the list of all violations in the order of §4.1(3):
    scenario by scenario in document order, and within a scenario the id
    error, the name error, the trigger errors in trigger order and the step
    errors in step order.  The validator returns that list whenever no entry
    makes a check raise, and it never returns any other list.  Finding an
    error never stops the run: what it has pushed to [errors] is always an
    initial segment of that list, and only an exception cuts it short. *)
Theorem C4_errors_accumulate_in_document_order (data : value)
  (ss : list value) :
  get_opt data "scenarios" = VArr ss ->
  let ordered :=
    map message
      (flat_mapi
         (fun i s =>
            id_error i s ++ name_error i s
              ++ trigger_errors i s ++ step_errors i s)%list
         ss) in
  (forallb scenario_entry_ok ss = true ->
   Validator.validate data = Ok ordered)
  /\ (forall errs, Validator.validate data = Ok errs -> errs = ordered)
  /\ (exists rest,
         ordered = (fst (Validator.check_document data []) ++ rest)%list).
Proof.
  intros Hd ordered. split; [|split].
  - intros Hss. now apply validate_returns.
  - intros errs H. now apply (validate_inv data ss errs Hd).
  - destruct (check_document_within data ss Hd []) as (p & q & r & E & Hg & _).
    rewrite E. exists q. exact Hg.
Qed.

Lemma C4_witness :
  Validator.validate Samples.two_invalid
  = Ok ["Scenario 0: id invalid"; "Scenario 1, Step 0: invalid structure"].
Proof.
  apply (proj1 (C4_errors_accumulate_in_document_order Samples.two_invalid _
                  eq_refl)).
  reflexivity.
Defined.

(** C2. In the list the validator returns, the error
    "Scenario i, Trigger j: value missing" is present if and only if the key
    [value] is absent from the [trigger] mapping of trigger [j] of scenario
    [i].  When the key is present, whatever its value ([null], the empty
    string and [0] included), the error is not emitted. *)
Theorem C2_value_missing_iff_key_absent (data : value) (ss : list value)
  (errs : list string) (i : nat) (s : value) (ts : list value) (j : nat)
  (t : value) (m : list (string * value)) :
  get_opt data "scenarios" = VArr ss ->
  Validator.validate data = Ok errs ->
  nth_error ss i = Some s ->
  get_opt s "triggers" = VArr ts ->
  nth_error ts j = Some t ->
  get_opt t "trigger" = VObj m ->
  (In ("Scenario " ++ string_of_nat i ++ ", Trigger " ++ string_of_nat j
         ++ ": value missing") errs
   <-> lookup "value" m = None)
  /\ (forall v,
        lookup "value" m = Some v ->
        ~ In ("Scenario " ++ string_of_nat i ++ ", Trigger " ++ string_of_nat j
                ++ ": value missing") errs).
Proof.
  intros Hd Hv Hs Hts Ht Hm.
  destruct (validate_inv data ss errs Hd Hv) as [_ ->].
  assert (Hiff :
    In (message (ValueMissing i j)) (ordered_errors ss)
    <-> lookup "value" m = None).
  { rewrite in_message_ordered_errors. split.
    - intros (i' & s' & Hs' & H).
      apply in_scenario_violations_value in H as [<- (ts' & t' & Hts' & Ht' & H)].
      rewrite Hs in Hs'. injection Hs' as <-.
      rewrite Hts in Hts'. injection Hts' as <-.
      rewrite Ht in Ht'. injection Ht' as <-.
      unfold value_absent in H. rewrite Hm in H. simpl in H.
      now destruct (lookup "value" m).
    - intros H. exists i, s. split; [exact Hs|].
      apply in_scenario_violations_value. split; [reflexivity|].
      exists ts, t. repeat split; auto.
      unfold value_absent. rewrite Hm. simpl. now rewrite H. }
  split; [exact Hiff|].
  intros v Hsome Hin. apply Hiff in Hin. congruence.
Qed.

Lemma C2_witness :
  In "Scenario 0, Trigger 0: value missing"
    ["Scenario 0, Trigger 0: value missing"]
  /\ ~ In "Scenario 0, Trigger 1: value missing"
       ["Scenario 0, Trigger 0: value missing"]
  /\ ~ In "Scenario 0, Trigger 2: value missing"
       ["Scenario 0, Trigger 0: value missing"]
  /\ ~ In "Scenario 0, Trigger 3: value missing"
       ["Scenario 0, Trigger 0: value missing"].
Proof.
  split; [|split; [|split]].
  - apply (proj1 (C2_value_missing_iff_key_absent Samples.trigger_values
                    _ _ 0 _ _ 0 _ _
                    eq_refl eq_refl eq_refl eq_refl eq_refl eq_refl)).
    reflexivity.
  - apply (proj2 (C2_value_missing_iff_key_absent Samples.trigger_values
                    _ _ 0 _ _ 1 _ _
                    eq_refl eq_refl eq_refl eq_refl eq_refl eq_refl) VNull).
    reflexivity.
  - apply (proj2 (C2_value_missing_iff_key_absent Samples.trigger_values
                    _ _ 0 _ _ 2 _ _
                    eq_refl eq_refl eq_refl eq_refl eq_refl eq_refl) (VStr "")).
    reflexivity.
  - apply (proj2 (C2_value_missing_iff_key_absent Samples.trigger_values
                    _ _ 0 _ _ 3 _ _
                    eq_refl eq_refl eq_refl eq_refl eq_refl eq_refl) (VNum 0)).
    reflexivity.
Defined.

(** C3, amended.  In the list the validator returns, "Scenario i: id invalid"
    is present if and only if the [id] of scenario [i] is not a non-empty
    string (it is absent, or not a string, or the empty string), and
    "Scenario i: name invalid" if and only if its [name] is not a non-empty
    string.  A scenario whose [id] and [name] are non-empty strings produces
    neither error. *)
Theorem C3_id_name_invalid_iff_not_non_empty_string (data : value)
  (ss : list value) (errs : list string) (i : nat) (s : value) :
  get_opt data "scenarios" = VArr ss ->
  Validator.validate data = Ok errs ->
  nth_error ss i = Some s ->
  (In ("Scenario " ++ string_of_nat i ++ ": id invalid") errs
   <-> ~ non_empty_string (get_opt s "id"))
  /\ (In ("Scenario " ++ string_of_nat i ++ ": name invalid") errs
      <-> ~ non_empty_string (get_opt s "name")).
Proof.
  intros Hd Hv Hs.
  destruct (validate_inv data ss errs Hd Hv) as [_ ->].
  assert (N : forall v, not_a_string v = true <-> ~ non_empty_string v).
  { intros v. unfold non_empty_string. rewrite <- not_a_string_spec.
    destruct (not_a_string v); split; congruence. }
  split.
  - change (In (message (IdInvalid i)) (ordered_errors ss)
            <-> ~ non_empty_string (get_opt s "id")).
    rewrite in_message_ordered_errors, <- N. split.
    + intros (i' & s' & Hs' & H).
      apply in_scenario_violations_id in H as [<- H].
      rewrite Hs in Hs'. now injection Hs' as <-.
    + intros H. exists i, s. split; [exact Hs|].
      now apply in_scenario_violations_id.
  - change (In (message (NameInvalid i)) (ordered_errors ss)
            <-> ~ non_empty_string (get_opt s "name")).
    rewrite in_message_ordered_errors, <- N. split.
    + intros (i' & s' & Hs' & H).
      apply in_scenario_violations_name in H as [<- H].
      rewrite Hs in Hs'. now injection Hs' as <-.
    + intros H. exists i, s. split; [exact Hs|].
      now apply in_scenario_violations_name.
Qed.

Lemma C3_witness :
  (In "Scenario 0: id invalid"
     ["Scenario 0: id invalid"; "Scenario 1, Step 0: invalid structure"]
   <-> ~ non_empty_string (VNum 7))
  /\ (In "Scenario 0: name invalid"
        ["Scenario 0: id invalid"; "Scenario 1, Step 0: invalid structure"]
      <-> ~ non_empty_string (VStr "first")).
Proof.
  exact (C3_id_name_invalid_iff_not_non_empty_string Samples.two_invalid
           _ _ 0 _ eq_refl eq_refl eq_refl).
Defined.

(** C3, as stated, fails: the [id] of the scenario is a present string, the
    empty one, and the validator emits the id error. *)
Lemma C3_counterexample :
  get_opt
    (VObj [("id", VStr ""); ("name", VStr "n");
           ("triggers", VArr []); ("steps", VArr [])]) "id"
  = VStr ""
  /\ Validator.validate Samples.empty_id = Ok ["Scenario 0: id invalid"].
Proof.
  split; reflexivity.
Qed.
(** ** The differ against the list of changes *)

Import DifferSpec.

Lemma other_scenario_non_null (version : value) (i : nat) :
  non_null (other_scenario version i) = true.
Proof.
  unfold other_scenario.
  destruct (truthy (get_opt (get_opt version "scenarios") (string_of_nat i)))
    eqn:E; [now apply truthy_non_null | reflexivity].
Qed.

Lemma compare_run (a b : value) (p : string) (st : list string) :
  Differ.compare a b p st
  = ((st ++ if strict_neq (stringify a) (stringify b)
            then [Differ.change_line a b p] else [])%list, Ok tt).
Proof.
  unfold Differ.compare, when.
  destruct (strict_neq (stringify a) (stringify b)); [reflexivity|].
  unfold ret. now rewrite app_nil_r.
Qed.

Lemma diff_scenario_returns (version s : value) (i : nat) (st : list string) :
  non_null (get_opt version "scenarios") = true ->
  non_null s = true ->
  Differ.diff_scenario version s i st
  = ((st ++ scenario_changes version i s)%list, Ok tt).
Proof.
  intros Hv Hs.
  pose proof (get_opt_non_null _ _ Hv) as Hversion.
  pose proof (other_scenario_non_null version i) as Ho.
  unfold Differ.diff_scenario, get_index.
  rewrite (get_non_null version _ Hversion). rewrite bind_lift_ok.
  rewrite (get_non_null _ (string_of_nat i) Hv). rewrite bind_lift_ok.
  fold (other_scenario version i). cbv zeta.
  rewrite !(get_non_null s _ Hs), !(get_non_null _ _ Ho).
  unfold bind, lift. rewrite !compare_run.
  unfold scenario_changes, field_change. now rewrite !app_assoc.
Qed.

Lemma diff_scenario_throws (version s : value) (i : nat) (st : list string) :
  non_null (get_opt version "scenarios") && non_null s = false ->
  exists st', Differ.diff_scenario version s i st = (st', Throw TypeError).
Proof.
  intros H. unfold Differ.diff_scenario, get_index.
  destruct (non_null version) eqn:Hversion;
    [|rewrite (get_null version _ Hversion); run; eauto].
  rewrite (get_non_null version _ Hversion). rewrite bind_lift_ok.
  destruct (non_null (get_opt version "scenarios")) eqn:Hv;
    [|rewrite (get_null _ (string_of_nat i) Hv); run; eauto].
  rewrite (get_non_null _ (string_of_nat i) Hv). rewrite bind_lift_ok.
  cbv zeta. simpl in H. rewrite (get_null s _ H). run. eauto.
Qed.

Lemma collect_changes_returns (current version : value) :
  DifferSpec.entries_ok current version = true ->
  Differ.collect_changes current version []
  = (expected_changes current version, Ok tt).
Proof.
  unfold DifferSpec.entries_ok, expected_changes, Differ.collect_changes.
  intros H.
  assert (Hc : non_null current = true).
  { apply get_opt_non_null with (k := "scenarios").
    now destruct (get_opt current "scenarios"). }
  rewrite (get_non_null current _ Hc), bind_lift_ok.
  destruct (get_opt current "scenarios") as [| | | | |cs|]; try discriminate.
  unfold forEach, flat_mapi.
  destruct cs as [|c cs]; [reflexivity|].
  apply andb_true_iff in H as [Hv Hcs].
  rewrite (forEach_from_returns _ (scenario_changes version)); [reflexivity|].
  intros x i st Hx. apply diff_scenario_returns; [exact Hv|].
  rewrite forallb_forall in Hcs. now apply Hcs.
Qed.

Lemma collect_changes_throws (current version : value) :
  DifferSpec.entries_ok current version = false ->
  exists st', Differ.collect_changes current version [] = (st', Throw TypeError).
Proof.
  unfold DifferSpec.entries_ok, Differ.collect_changes. intros H.
  destruct (non_null current) eqn:Hc;
    [|rewrite (get_null current _ Hc); run; eauto].
  rewrite (get_non_null current _ Hc), bind_lift_ok.
  destruct (get_opt current "scenarios") as [| | | | |cs|];
    try (exists []; reflexivity).
  destruct cs as [|c cs]; [discriminate|].
  unfold forEach.
  apply forEach_from_throws
    with (ok := fun s => non_null (get_opt version "scenarios") && non_null s).
  - intros x i st _ Hx. apply andb_true_iff in Hx as [Hv Hx].
    rewrite diff_scenario_returns by assumption. eauto.
  - intros x i st _ Hx. now apply diff_scenario_throws.
  - destruct (non_null (get_opt version "scenarios")).
    + exact H.
    + reflexivity.
Qed.

Lemma changes_returns (current version : value) :
  DifferSpec.entries_ok current version = true ->
  Differ.changes current version = Ok (expected_changes current version).
Proof.
  intros H. unfold Differ.changes. now rewrite collect_changes_returns.
Qed.

Lemma changes_inv (current version : value) (l : list string) :
  Differ.changes current version = Ok l ->
  DifferSpec.entries_ok current version = true
  /\ l = expected_changes current version.
Proof.
  intros H. destruct (DifferSpec.entries_ok current version) eqn:E.
  - rewrite (changes_returns _ _ E) in H. injection H as <-. auto.
  - unfold Differ.changes in H.
    destruct (collect_changes_throws _ _ E) as [st' Hc]. rewrite Hc in H.
    discriminate.
Qed.

Lemma simpleDiff_returns (current version : value) :
  DifferSpec.entries_ok current version = true ->
  Differ.simpleDiff current version
  = Ok (if nonempty (expected_changes current version)
        then join newline (expected_changes current version)
        else Differ.no_differences).
Proof.
  intros H. unfold Differ.simpleDiff. now rewrite collect_changes_returns.
Qed.

(** The differ returns exactly on the documents of [entries_ok]. *)
Lemma simpleDiff_returns_iff (current version : value) :
  (exists out, Differ.simpleDiff current version = Ok out)
  <-> DifferSpec.entries_ok current version = true.
Proof.
  split.
  - intros [out H]. destruct (DifferSpec.entries_ok current version) eqn:E;
      [reflexivity|].
    unfold Differ.simpleDiff in H.
    destruct (collect_changes_throws _ _ E) as [st' Hc]. rewrite Hc in H.
    discriminate.
  - intros H. rewrite simpleDiff_returns by exact H. eauto.
Qed.
Lemma strict_neq_refl (a : option string) : strict_neq a a = false.
Proof.
  destruct a as [x|]; simpl; [now rewrite String.eqb_refl | reflexivity].
Qed.

Lemma strict_neq_sym (a b : option string) : strict_neq a b = strict_neq b a.
Proof.
  destruct a, b; simpl; try reflexivity. now rewrite String.eqb_sym.
Qed.

Lemma in_fields (f : string) :
  In f fields -> f = "name" \/ f = "triggers" \/ f = "steps".
Proof.
  unfold fields. simpl. intuition.
Qed.

(** The fields the differ reads are undefined on a falsy entry, as they are
    on the empty object that replaces it. *)
Lemma field_of_falsy (s : value) (f : string) :
  non_null s = true -> truthy s = false -> In f fields -> get_opt s f = VUndef.
Proof.
  intros Hn Ht Hf.
  destruct s; try discriminate; try reflexivity.
  simpl in Ht. apply negb_false_iff, String.eqb_eq in Ht. subst s.
  apply in_fields in Hf as [->|[->| ->]]; reflexivity.
Qed.

Lemma field_or_empty (b : value) (f : string) :
  non_null b = true -> In f fields ->
  get_opt (if truthy b then b else VObj []) f = get_opt b f.
Proof.
  intros Hn Hf. destruct (truthy b) eqn:Ht; [reflexivity|].
  rewrite (field_of_falsy b f Hn Ht Hf). reflexivity.
Qed.

Lemma other_scenario_array (version : value) (vs : list value) (i : nat) :
  get_opt version "scenarios" = VArr vs ->
  other_scenario version i
  = if truthy (nth i vs VUndef) then nth i vs VUndef else VObj [].
Proof.
  intros H. unfold other_scenario. rewrite H.
  unfold get_opt. fold (get_index (VArr vs) i). now rewrite get_index_array.
Qed.

Lemma flat_mapi_from_nil {A B : Type} (g : nat -> A -> list B) (l : list A) :
  forall i,
    (forall j x, nth_error l j = Some x -> g (i + j) x = []) ->
    flat_mapi_from g i l = [].
Proof.
  induction l as [|y l IH]; intros i H; simpl; [reflexivity|].
  rewrite IH.
  - rewrite app_nil_r. rewrite <- (Nat.add_0_r i). now apply H.
  - intros j x Hj. rewrite Nat.add_succ_comm. now apply (H (S j)).
Qed.

Lemma field_change_same (version : value) (i : nat) (s : value) (f : string) :
  stringify (get_opt s f) = stringify (get_opt (other_scenario version i) f) ->
  field_change version i s f = [].
Proof.
  intros H. unfold field_change. cbv zeta. now rewrite H, strict_neq_refl.
Qed.

(** Scenarios whose three fields serialize alike leave [changes] empty. *)
Lemma no_changes (current version : value) (cs : list value) :
  get_opt current "scenarios" = VArr cs ->
  (forall i s f,
      nth_error cs i = Some s -> In f fields ->
      stringify (get_opt s f)
      = stringify (get_opt (other_scenario version i) f)) ->
  expected_changes current version = [].
Proof.
  intros Hc H. unfold expected_changes, flat_mapi. rewrite Hc.
  apply flat_mapi_from_nil. intros j s Hj. simpl in *.
  unfold scenario_changes.
  rewrite !field_change_same; try reflexivity;
    apply H; auto; unfold fields; simpl; auto.
Qed.

Lemma in_expected_changes (current version : value) (cs : list value)
  (line : string) :
  get_opt current "scenarios" = VArr cs ->
  (In line (expected_changes current version) <->
   exists i s f,
     nth_error cs i = Some s /\ In f fields
     /\ strict_neq (stringify (get_opt s f))
          (stringify (get_opt (other_scenario version i) f)) = true
     /\ line = Differ.change_line (get_opt s f)
                 (get_opt (other_scenario version i) f) (Differ.path i f)).
Proof.
  intros Hc. unfold expected_changes, flat_mapi. rewrite Hc.
  rewrite in_flat_mapi_from. simpl. split.
  - intros (i & s & Hi & H). unfold scenario_changes in H.
    repeat (apply in_app_or in H as [H|H]);
      unfold field_change in H; cbv zeta in H;
      match type of H with
      | In _ (if ?b then _ else _) => destruct b eqn:E; [|destruct H]
      end;
      destruct H as [<-|[]];
      eexists i, s, _; (split; [exact Hi|]);
      (split; [|split; [exact E|reflexivity]]);
      unfold fields; simpl; auto.
  - intros (i & s & f & Hi & Hf & E & ->). exists i, s. split; [exact Hi|].
    unfold scenario_changes.
    apply in_fields in Hf as [->|[->| ->]];
      [apply in_or_app; left
      |apply in_or_app; right; apply in_or_app; left
      |apply in_or_app; right; apply in_or_app; right];
      unfold field_change; cbv zeta; rewrite E; now left.
Qed.
(** A change line names one path only. *)
Lemma path_prefix_inj (i j : nat) (f g rest : string) :
  In f fields -> In g fields ->
  String.prefix (Differ.path i f ++ ": ") (Differ.path j g ++ ": " ++ rest) = true ->
  i = j /\ f = g.
Proof.
  intros Hf Hg H. apply prefix_inv in H as [r H].
  unfold Differ.path in H. rewrite !append_assoc in H.
  apply (append_inv_head "Scenario ") in H.
  apply in_fields in Hf as [->|[->| ->]];
    apply in_fields in Hg as [->|[->| ->]];
    apply nat_numeral_split in H; try reflexivity;
    destruct H as [-> H]; try discriminate H; auto.
Qed.

Lemma reports_iff (current version : value) (cs : list value) (i : nat)
  (f : string) :
  get_opt current "scenarios" = VArr cs ->
  DifferSpec.entries_ok current version = true ->
  In f fields ->
  (reports current version i f <->
   exists s, nth_error cs i = Some s
             /\ strict_neq (stringify (get_opt s f))
                  (stringify (get_opt (other_scenario version i) f)) = true).
Proof.
  intros Hc Hok Hf. unfold reports. rewrite (changes_returns _ _ Hok). split.
  - intros (l & line & E & Hin & Hp). injection E as <-.
    apply (in_expected_changes current version cs line Hc) in Hin
      as (j & s & g & Hj & Hg & Hneq & ->).
    unfold Differ.change_line in Hp.
    apply path_prefix_inj in Hp as [-> ->]; eauto.
  - intros (s & Hi & Hneq). eexists _, _. split; [reflexivity|]. split.
    + apply (in_expected_changes current version cs _ Hc).
      exists i, s, f. eauto.
    + unfold Differ.change_line. rewrite <- append_assoc.
      apply prefix_append.
Qed.
Lemma entries_ok_arrays (current version : value) (cs vs : list value) :
  get_opt current "scenarios" = VArr cs ->
  get_opt version "scenarios" = VArr vs ->
  forallb non_null cs = true ->
  DifferSpec.entries_ok current version = true.
Proof.
  intros Hc Hv H. unfold DifferSpec.entries_ok. rewrite Hc, Hv.
  destruct cs; [reflexivity | exact H].
Qed.

Lemma nth_of_nth_error (l : list value) (i : nat) (x : value) :
  nth_error l i = Some x -> nth i l VUndef = x.
Proof.
  intros H. now apply nth_error_nth.
Qed.

Lemma change_line_prefix (a b : value) (i : nat) (f : string) :
  String.prefix ("Scenario " ++ string_of_nat i ++ "." ++ f ++ ": ")
    (Differ.change_line a b (Differ.path i f)) = true.
Proof.
  unfold Differ.change_line, Differ.path.
  replace (("Scenario " ++ string_of_nat i ++ "." ++ f) ++ ": "
             ++ interpolate (stringify b) ++ Differ.arrow
             ++ interpolate (stringify a))
    with (("Scenario " ++ string_of_nat i ++ "." ++ f ++ ": ")
            ++ interpolate (stringify b) ++ Differ.arrow
            ++ interpolate (stringify a))
    by (now rewrite !append_assoc).
  apply prefix_append.
Qed.

(** * The claims about the differ *)

(** C6. For a document [A] whose [scenarios] is a sequence of scenarios (no
    entry is null), [simpleDiff A A] returns the sentinel
    "No differences found." and the run pushes no change line. *)
Theorem C6_diff_with_itself_is_the_sentinel (A : value) (ss : list value) :
  get_opt A "scenarios" = VArr ss ->
  forallb non_null ss = true ->
  Differ.simpleDiff A A = Ok "No differences found."
  /\ Differ.changes A A = Ok [].
Proof.
  intros HA Hss.
  pose proof (entries_ok_arrays A A ss ss HA HA Hss) as Hok.
  assert (E : expected_changes A A = []).
  { apply (no_changes A A ss HA). intros i s f Hi Hf.
    rewrite (other_scenario_array A ss i HA), (nth_of_nth_error ss i s Hi).
    rewrite field_or_empty; [reflexivity| |exact Hf].
    rewrite forallb_forall in Hss. apply Hss. eapply nth_error_In. exact Hi. }
  rewrite (simpleDiff_returns A A Hok), (changes_returns A A Hok), E.
  split; reflexivity.
Qed.

Lemma C6_witness :
  Differ.simpleDiff Samples.template Samples.template
  = Ok "No differences found."
  /\ Differ.changes Samples.template Samples.template = Ok [].
Proof.
  apply (C6_diff_with_itself_is_the_sentinel Samples.template _ eq_refl).
  reflexivity.
Defined.

(** C7. A change line is emitted only for one of the fields [name],
    [triggers], [steps] of a scenario at an index of [current]; and when
    the scenarios of [current] and those of [version] at the same indices
    agree on these three fields, [simpleDiff] returns
    "No differences found.", whatever their other fields are and however
    many more scenarios [version] has. *)
Theorem C7_only_three_fields_at_indices_of_current :
  (forall current version cs l line,
      get_opt current "scenarios" = VArr cs ->
      Differ.changes current version = Ok l ->
      In line l ->
      exists i f,
        i < length cs /\ In f ["name"; "triggers"; "steps"]
        /\ String.prefix ("Scenario " ++ string_of_nat i ++ "." ++ f ++ ": ")
             line = true)
  /\ (forall current version cs vs,
         get_opt current "scenarios" = VArr cs ->
         get_opt version "scenarios" = VArr vs ->
         (forall i s,
             nth_error cs i = Some s ->
             exists cm vm,
               s = VObj cm /\ nth_error vs i = Some (VObj vm)
               /\ lookup "name" cm = lookup "name" vm
               /\ lookup "triggers" cm = lookup "triggers" vm
               /\ lookup "steps" cm = lookup "steps" vm) ->
         Differ.simpleDiff current version = Ok "No differences found.").
Proof.
  split.
  - intros current version cs l line Hc Hl Hin.
    apply changes_inv in Hl as [_ ->].
    apply (in_expected_changes current version cs line Hc) in Hin
      as (i & s & f & Hi & Hf & _ & ->).
    exists i, f. split; [|split; [exact Hf|]].
    + apply nth_error_Some. now rewrite Hi.
    + apply change_line_prefix.
  - intros current version cs vs Hc Hv H.
    assert (Hcs : forallb non_null cs = true).
    { apply forallb_forall. intros s Hs.
      apply In_nth_error in Hs as [i Hi].
      destruct (H i s Hi) as (cm & vm & -> & _). reflexivity. }
    pose proof (entries_ok_arrays current version cs vs Hc Hv Hcs) as Hok.
    rewrite (simpleDiff_returns current version Hok).
    rewrite (no_changes current version cs Hc); [reflexivity|].
    intros i s f Hi Hf.
    destruct (H i s Hi) as (cm & vm & -> & Hvi & Hn & Ht & Hs).
    rewrite (other_scenario_array version vs i Hv),
      (nth_of_nth_error vs i _ Hvi).
    cbn [truthy]. unfold get_opt, get.
    apply in_fields in Hf as [->|[->| ->]]; congruence.
Qed.

Lemma C7_witness :
  Differ.simpleDiff Samples.newer Samples.older = Ok "No differences found."
  /\ exists i f,
       i < 1 /\ In f ["name"; "triggers"; "steps"]
       /\ String.prefix ("Scenario " ++ string_of_nat i ++ "." ++ f ++ ": ")
            ("Scenario 0.name: " ++ dquote ++ "Y" ++ dquote ++ " → "
               ++ dquote ++ "X" ++ dquote) = true.
Proof.
  split.
  - apply (proj2 C7_only_three_fields_at_indices_of_current
             Samples.newer Samples.older _ _ eq_refl eq_refl).
    intros [|[|i]] s Hi; try discriminate Hi.
    injection Hi as <-. eexists _, _.
    split; [reflexivity|]. split; [reflexivity|]. repeat split.
  - apply (proj1 C7_only_three_fields_at_indices_of_current
             Samples.current_X Samples.previous_Y _ _ _ eq_refl eq_refl).
    left. reflexivity.
Defined.
(** C9. Every change line has the form
    "Scenario i.field: previous → current", where [field] is one of the
    three compared fields of scenario [i] of [current], [previous] is the
    serialized value of the field in [version.scenarios[i] || {}] and
    [current] the serialized value of the field in the scenario (a value
    that [JSON.stringify] maps to [undefined] is written "undefined"); and
    on the documents of the example of §8 [simpleDiff] returns the single
    line Scenario 0.name: "Y" → "X". *)
Theorem C9_change_line_format :
  (forall current version cs l line,
      get_opt current "scenarios" = VArr cs ->
      Differ.changes current version = Ok l ->
      In line l ->
      exists i s f,
        nth_error cs i = Some s
        /\ In f ["name"; "triggers"; "steps"]
        /\ line
           = "Scenario " ++ string_of_nat i ++ "." ++ f ++ ": "
               ++ interpolate (stringify (get_opt (other_scenario version i) f))
               ++ " → "
               ++ interpolate (stringify (get_opt s f)))
  /\ Differ.simpleDiff Samples.current_X Samples.previous_Y
     = Ok ("Scenario 0.name: " ++ dquote ++ "Y" ++ dquote ++ " → "
             ++ dquote ++ "X" ++ dquote).
Proof.
  split; [|reflexivity].
  intros current version cs l line Hc Hl Hin.
  apply changes_inv in Hl as [_ ->].
  apply (in_expected_changes current version cs line Hc) in Hin
    as (i & s & f & Hi & Hf & _ & ->).
  exists i, s, f. split; [exact Hi|]. split; [exact Hf|].
  unfold Differ.change_line, Differ.path, Differ.arrow.
  now rewrite !append_assoc.
Qed.

Lemma C9_witness :
  exists i s f,
    nth_error
      [VObj [("name", VStr "X"); ("triggers", VArr [VNum 1]);
             ("steps", VArr [])]] i = Some s
    /\ In f ["name"; "triggers"; "steps"]
    /\ "Scenario 0.name: " ++ dquote ++ "Y" ++ dquote ++ " → "
         ++ dquote ++ "X" ++ dquote
       = "Scenario " ++ string_of_nat i ++ "." ++ f ++ ": "
           ++ interpolate
                (stringify (get_opt (other_scenario Samples.previous_Y i) f))
           ++ " → "
           ++ interpolate (stringify (get_opt s f)).
Proof.
  apply (proj1 C9_change_line_format Samples.current_X Samples.previous_Y
           _ _ _ eq_refl eq_refl).
  left. reflexivity.
Defined.

(** C8, amended.  For documents [A] and [B] with the same number of
    scenarios, none of them null, [simpleDiff A B] and [simpleDiff B A]
    report differences at the same paths: a line for field [f] of
    scenario [i] is among the changes of one if and only if it is among the
    changes of the other. *)
Theorem C8_same_paths_when_lengths_agree (A B : value) (sa sb : list value)
  (i : nat) (f : string) :
  get_opt A "scenarios" = VArr sa ->
  get_opt B "scenarios" = VArr sb ->
  length sa = length sb ->
  forallb non_null sa = true ->
  forallb non_null sb = true ->
  In f ["name"; "triggers"; "steps"] ->
  (reports A B i f <-> reports B A i f).
Proof.
  intros HA HB Hlen Hsa Hsb Hf.
  pose proof (entries_ok_arrays A B sa sb HA HB Hsa) as HokAB.
  pose proof (entries_ok_arrays B A sb sa HB HA Hsb) as HokBA.
  rewrite (reports_iff A B sa i f HA HokAB Hf).
  rewrite (reports_iff B A sb i f HB HokBA Hf).
  rewrite (other_scenario_array B sb i HB), (other_scenario_array A sa i HA).
  assert (Hside : forall xs ys,
    length xs = length ys ->
    forallb non_null xs = true -> forallb non_null ys = true ->
    (exists s, nth_error xs i = Some s
               /\ strict_neq (stringify (get_opt s f))
                    (stringify
                       (get_opt (if truthy (nth i ys VUndef)
                                 then nth i ys VUndef else VObj []) f)) = true) ->
    exists s, nth_error ys i = Some s
              /\ strict_neq (stringify (get_opt s f))
                   (stringify
                      (get_opt (if truthy (nth i xs VUndef)
                                then nth i xs VUndef else VObj []) f)) = true).
  { intros xs ys Hl Hxs Hys (s & Hi & Hneq).
    assert (Hlt : i < length ys).
    { rewrite <- Hl. apply nth_error_Some. now rewrite Hi. }
    apply nth_error_Some in Hlt.
    destruct (nth_error ys i) as [t|] eqn:Ht; [|now elim Hlt].
    exists t. split; [reflexivity|].
    rewrite (nth_of_nth_error ys i t Ht) in Hneq.
    rewrite (nth_of_nth_error xs i s Hi).
    rewrite forallb_forall in Hxs, Hys.
    rewrite field_or_empty in Hneq
      by (auto; apply Hys; eapply nth_error_In; exact Ht).
    rewrite field_or_empty by (auto; apply Hxs; eapply nth_error_In; exact Hi).
    now rewrite strict_neq_sym. }
  split; apply Hside; auto.
Qed.

Lemma C8_witness :
  reports Samples.current_X Samples.previous_Y 0 "name"
  <-> reports Samples.previous_Y Samples.current_X 0 "name".
Proof.
  apply (C8_same_paths_when_lengths_agree Samples.current_X Samples.previous_Y
           _ _ 0 "name" eq_refl eq_refl eq_refl eq_refl eq_refl).
  left. reflexivity.
Defined.

(** C8, as stated, fails: the two documents differ in the name of scenario 0,
    and [simpleDiff] reports a difference at the name of scenario 1 in one
    direction only, because only the scenarios of its first argument are
    iterated. *)
Lemma C8_counterexample :
  Differ.simpleDiff Samples.two_scenarios Samples.one_scenario
  = Ok ("Scenario 0.name: " ++ dquote ++ "Y" ++ dquote ++ " → "
          ++ dquote ++ "X" ++ dquote ++ newline
          ++ "Scenario 1.name: undefined → " ++ dquote ++ "Z" ++ dquote)
  /\ Differ.simpleDiff Samples.one_scenario Samples.two_scenarios
     = Ok ("Scenario 0.name: " ++ dquote ++ "X" ++ dquote ++ " → "
             ++ dquote ++ "Y" ++ dquote)
  /\ reports Samples.two_scenarios Samples.one_scenario 1 "name"
  /\ ~ reports Samples.one_scenario Samples.two_scenarios 1 "name".
Proof.
  split; [reflexivity|]. split; [reflexivity|]. split.
  - eexists _, _. split; [reflexivity|]. split; [right; left; reflexivity|].
    reflexivity.
  - intros (l & line & Hl & Hin & Hp).
    injection Hl as <-. destruct Hin as [<-|[]]. discriminate Hp.
Qed.
(** ** The trace formatter returns only on sequences *)

Lemma simulate_step_inv (x : value) (k : nat) (st1 st2 : list string) :
  Simulator.simulate_step x k st1 = (st2, Ok tt) ->
  isArray (get_opt (get_opt x "parameters") "items") = true.
Proof.
  unfold Simulator.simulate_step. intros H.
  destruct (non_null x) eqn:Hx;
    [|rewrite !(get_null x _ Hx) in H; discriminate H].
  rewrite !(get_non_null x _ Hx) in H. rewrite bind_lift_ok in H.
  destruct (non_null (get_opt x "parameters")) eqn:Hp;
    [|rewrite (get_null _ "items" Hp) in H; discriminate H].
  rewrite (get_non_null _ "items" Hp) in H. rewrite bind_lift_ok in H.
  destruct (get_opt (get_opt x "parameters") "items");
    try discriminate H; reflexivity.
Qed.

Lemma simulate_scenario_inv (s : value) (i : nat) (st1 st2 : list string) :
  Simulator.simulate_scenario s i st1 = (st2, Ok tt) ->
  isArray (get_opt s "triggers") = true
  /\ isArray (get_opt s "steps") = true
  /\ forall sts k x,
       get_opt s "steps" = VArr sts -> nth_error sts k = Some x ->
       isArray (get_opt (get_opt x "parameters") "items") = true.
Proof.
  unfold Simulator.simulate_scenario. intros H.
  destruct (non_null s) eqn:Hs;
    [|rewrite !(get_null s _ Hs) in H; discriminate H].
  rewrite !(get_non_null s _ Hs) in H. rewrite bind_lift_ok in H.
  destruct (to_string (get_opt s "name")) as [name|e];
    [|rewrite bind_lift_throw in H; discriminate H].
  rewrite bind_lift_ok, bind_push, bind_lift_ok in H.
  unfold bind at 1 in H.
  destruct (get_opt s "triggers") as [| | | | |ts|]; try discriminate H.
  destruct (forEach (VArr ts) Simulator.simulate_trigger _) as [st' [[]|e]];
    [|discriminate H].
  rewrite bind_lift_ok in H.
  destruct (get_opt s "steps") as [| | | | |sts|]; try discriminate H.
  repeat split. intros sts' k x E Hk. injection E as <-.
  destruct (forEach_from_inv _ _ _ _ _ H k x Hk) as (s1 & s2 & Hx).
  now apply simulate_step_inv in Hx.
Qed.

Lemma simulate_inv (data : value) (ss : list value) (out : string) :
  get_opt data "scenarios" = VArr ss ->
  Simulator.simulate data = Ok out ->
  forall i s, nth_error ss i = Some s ->
              exists st1 st2,
                Simulator.simulate_scenario s i st1 = (st2, Ok tt).
Proof.
  intros Hd H i s Hi. unfold Simulator.simulate in H.
  assert (Hn : non_null data = true).
  { apply get_opt_non_null with (k := "scenarios"). now rewrite Hd. }
  rewrite (get_non_null data _ Hn), Hd in H.
  destruct ss as [|s0 ss]; [destruct i; discriminate Hi|].
  change (negb (truthy (get_opt (VArr (s0 :: ss)) "length"))) with false in H.
  cbv iota in H. rewrite bind_lift_ok in H.
  destruct (forEach (VArr (s0 :: ss)) Simulator.simulate_scenario [])
    as [st' [[]|e]] eqn:E; [|discriminate H].
  exact (forEach_from_inv _ _ _ _ _ E i s Hi).
Qed.

(** * The claim about the trace formatter *)

(** C10. The trace formatter is partial.  Whenever it produces a trace,
    every scenario of the document has a sequence for [triggers] and for
    [steps] and every step has a sequence for [parameters.items]: it reads
    them without checking.  And there is a document with a non-empty
    [scenarios] sequence, a scenario without the [triggers] key, on which
    it throws while the validator returns a list of errors. *)
Theorem C10_trace_formatter_is_partial :
  (forall data ss out i s,
      get_opt data "scenarios" = VArr ss ->
      Simulator.simulate data = Ok out ->
      nth_error ss i = Some s ->
      isArray (get_opt s "triggers") = true
      /\ isArray (get_opt s "steps") = true
      /\ forall sts k x,
           get_opt s "steps" = VArr sts -> nth_error sts k = Some x ->
           isArray (get_opt (get_opt x "parameters") "items") = true)
  /\ (exists data s,
         get_opt data "scenarios" = VArr [s]
         /\ (exists m, s = VObj m /\ lookup "triggers" m = None)
         /\ Simulator.simulate data = Throw TypeError
         /\ Validator.validate data
            = Ok ["Scenario 0: triggers missing or not an array"]).
Proof.
  split.
  - intros data ss out i s Hd H Hi.
    destruct (simulate_inv data ss out Hd H i s Hi) as (st1 & st2 & Hs).
    now apply simulate_scenario_inv in Hs.
  - exists Samples.no_triggers. eexists. split; [reflexivity|].
    split; [eexists; split; reflexivity|]. split; reflexivity.
Qed.

Lemma C10_witness :
  isArray (VArr [VObj [("trigger",
                        VObj [("type", VStr "scenario.trigger.voice");
                              ("value", VStr "hello")])]]) = true
  /\ isArray (VArr [VObj [("type", VStr "scenarios.steps.actions.v2");
                          ("parameters", VObj [("items", VArr [])])]]) = true
  /\ forall sts k x,
       VArr [VObj [("type", VStr "scenarios.steps.actions.v2");
                   ("parameters", VObj [("items", VArr [])])]] = VArr sts ->
       nth_error sts k = Some x ->
       isArray (get_opt (get_opt x "parameters") "items") = true.
Proof.
  exact (proj1 C10_trace_formatter_is_partial Samples.template _ _ 0 _
           eq_refl eq_refl eq_refl).
Defined.
(** * The claim about exceptions *)

(** C1.  The validator and the differ do raise on parseable input.  On a
    trigger entry without the [trigger] key the validator pushes the type
    error (line 143 reads [t.trigger?.type]) and then line 144 applies [in]
    to [undefined]: the [TypeError] leaves the [try] block and the command
    reports it as a parsing error, not as a list of errors.  On a document
    without the [scenarios] key the differ calls [forEach] on
    [undefined]. *)
Theorem C1_validator_and_differ_raise :
  Validator.check_document Samples.trigger_without_trigger []
  = (["Scenario 0, Trigger 0: type invalid"], Throw TypeError)
  /\ Validator.validate Samples.trigger_without_trigger = Throw TypeError
  /\ Validator.validate_command Samples.trigger_without_trigger
     = Validator.ParsingErrorNotice TypeError
  /\ Differ.simpleDiff Samples.no_scenarios Samples.template = Throw TypeError
  /\ Differ.simpleDiff Samples.template Samples.no_scenarios = Throw TypeError.
Proof.
  repeat split.
Qed.

Import Notes.
(** * Further properties *)

(** ** Searching a text *)

Lemma strip_prefix_app (p r : string) : strip_prefix p (p ++ r) = Some r.
Proof.
  induction p as [|a p IH]; simpl.
  - now destruct r.
  - now rewrite Ascii.eqb_refl.
Qed.

Lemma strip_prefix_inv (p s r : string) :
  strip_prefix p s = Some r -> s = p ++ r.
Proof.
  revert s. induction p as [|a p IH]; intros s H.
  - destruct s; injection H as <-; reflexivity.
  - destruct s as [|b s]; simpl in H; [discriminate|].
    destruct (Ascii.eqb_spec a b) as [->|_]; [|discriminate].
    simpl. now rewrite (IH s H).
Qed.

(** Only the first [length p] characters decide whether [p] is a prefix. *)
Lemma strip_prefix_shorten (p u v r : string) :
  strip_prefix p (u ++ v) = Some r -> String.length p <= String.length u ->
  exists r', strip_prefix p u = Some r'.
Proof.
  revert u. induction p as [|a p IH]; intros u H L.
  - exists u. now destruct u.
  - destruct u as [|b u]; simpl in L; [now apply Nat.nle_succ_0 in L|].
    simpl in H |- *.
    destruct (Ascii.eqb a b); [|discriminate].
    apply (IH u H). now apply le_S_n.
Qed.

Lemma strip_prefix_extend (p u v r : string) :
  strip_prefix p u = Some r -> strip_prefix p (u ++ v) = Some (r ++ v).
Proof.
  intros H. apply strip_prefix_inv in H. subst u.
  rewrite append_assoc. apply strip_prefix_app.
Qed.

Lemma occurs_tail (p : string) (c : ascii) (s : string) :
  occurs p (String c s) = false -> occurs p s = false.
Proof.
  cbn [occurs]. fold (occurs p s).
  destruct (strip_prefix p (String c s)); [discriminate | auto].
Qed.

Lemma occurs_at_head (p s r : string) :
  strip_prefix p s = Some r -> occurs p s = true.
Proof.
  intros H. destruct s; simpl; now rewrite H.
Qed.

Lemma occurs_iff (p s : string) :
  occurs p s = true <-> exists a b, s = a ++ p ++ b.
Proof.
  split.
  - induction s as [|c s IH]; simpl.
    + destruct (strip_prefix p "") as [r|] eqn:E; [|discriminate].
      intros _. exists "", r. exact (strip_prefix_inv _ _ _ E).
    + destruct (strip_prefix p (String c s)) as [r|] eqn:E.
      * intros _. exists "", r. exact (strip_prefix_inv _ _ _ E).
      * intros H. destruct (IH H) as (a & b & ->).
        exists (String c a), b. reflexivity.
  - intros (a & b & ->). induction a as [|c a IH].
    + exact (occurs_at_head p (p ++ b) b (strip_prefix_app p b)).
    + destruct (occurs p (String c a ++ p ++ b)) eqn:E; [reflexivity|].
      apply (occurs_tail p c (a ++ p ++ b)) in E. congruence.
Qed.

Lemma occurs_false (p s : string) :
  occurs p s = false <-> forall a b, s <> a ++ p ++ b.
Proof.
  split.
  - intros H a b E.
    assert (T : occurs p s = true) by (apply occurs_iff; eauto).
    congruence.
  - intros H. destruct (occurs p s) eqn:E; [|reflexivity].
    apply occurs_iff in E as (a & b & E). now elim (H a b).
Qed.

Lemma occurs_head (p : string) (s : string) :
  occurs p s = false -> strip_prefix p s = None.
Proof.
  destruct s; simpl; now destruct (strip_prefix p _).
Qed.
(** ** The fenced block of a note *)

Lemma lazy_capture_sound (s y : string) :
  lazy_capture s = Some y -> exists post, s = y ++ fence_close ++ post.
Proof.
  revert y. induction s as [|c s IH]; intros y H; cbn [lazy_capture] in H.
  - destruct (strip_prefix fence_close "") as [r|] eqn:E; [|discriminate].
    discriminate E.
  - destruct (strip_prefix fence_close (String c s)) as [r|] eqn:E.
    + injection H as <-. exists r. exact (strip_prefix_inv _ _ _ E).
    + destruct (lazy_capture s) as [y'|]; [|discriminate].
      injection H as <-. destruct (IH y' eq_refl) as [post ->].
      exists post. reflexivity.
Qed.

(** The capture stops at the first closing fence. *)
Lemma lazy_capture_minimal (s y : string) :
  lazy_capture s = Some y -> occurs fence_close y = false.
Proof.
  revert y. induction s as [|c s IH]; intros y H; cbn [lazy_capture] in H.
  - destruct (strip_prefix fence_close "") as [r|] eqn:E; discriminate.
  - destruct (strip_prefix fence_close (String c s)) as [r|] eqn:E.
    + injection H as <-. reflexivity.
    + destruct (lazy_capture s) as [y'|] eqn:Ey; [|discriminate].
      injection H as <-.
      destruct (lazy_capture_sound s y' Ey) as [post ->].
      cbn [occurs]. fold (occurs fence_close y').
      destruct (strip_prefix fence_close (String c y')) as [r|] eqn:E';
        [|now apply IH].
      apply (strip_prefix_extend _ _ (fence_close ++ post)) in E'.
      change (String c y' ++ fence_close ++ post)
        with (String c (y' ++ fence_close ++ post)) in E'.
      congruence.
Qed.

Lemma lazy_capture_found (y post : string) :
  exists y', lazy_capture (y ++ fence_close ++ post) = Some y'.
Proof.
  induction y as [|c y [y' IH]].
  - exists "". reflexivity.
  - change (String c y ++ fence_close ++ post)
      with (String c (y ++ fence_close ++ post)).
    cbn [lazy_capture]. rewrite IH.
    destruct (strip_prefix fence_close (String c (y ++ fence_close ++ post)));
      eauto.
Qed.

(** A closing fence does not start inside a text that has none and end in
    the fence that follows it. *)
Lemma no_fence_across (y post : string) :
  y <> "" -> occurs fence_close y = false ->
  strip_prefix fence_close (y ++ fence_close ++ post) = None.
Proof.
  intros Hy H.
  destruct (strip_prefix fence_close (y ++ fence_close ++ post)) as [r|] eqn:E;
    [|reflexivity].
  apply occurs_head in H.
  destruct y as [|c1 [|c2 [|c3 [|c4 y]]]]; [now elim Hy| | | |];
    cbv [fence_close newline append strip_prefix] in E, H;
    repeat match type of E with
           | (if Ascii.eqb ?a ?b then _ else _) = _ =>
               destruct (Ascii.eqb a b) eqn:?
           end;
    try congruence;
    match goal with
    | Hq : Ascii.eqb "`"%char "010"%char = true |- _ =>
        cbv in Hq; discriminate Hq
    end.
Qed.

Lemma lazy_capture_exact (y post : string) :
  occurs fence_close y = false ->
  lazy_capture (y ++ fence_close ++ post) = Some y.
Proof.
  induction y as [|c y IH]; intros H.
  - reflexivity.
  - pose proof (no_fence_across (String c y) post ltac:(discriminate) H) as N.
    change (String c y ++ fence_close ++ post)
      with (String c (y ++ fence_close ++ post)) in N |- *.
    cbn [lazy_capture]. rewrite N, IH; [reflexivity|].
    now apply occurs_tail in H.
Qed.
Lemma length_append (a b : string) :
  String.length (a ++ b) = String.length a + String.length b.
Proof.
  induction a as [|c a IH]; simpl; [reflexivity | now rewrite IH].
Qed.

Lemma occurs_cons (p : string) (c : ascii) (s : string) :
  occurs p (String c s)
  = match strip_prefix p (String c s) with
    | Some _ => true
    | None => occurs p s
    end.
Proof. reflexivity. Qed.

Lemma match_here_open (rest : string) :
  match_here (fence_open ++ rest) = lazy_capture rest.
Proof.
  unfold match_here. now rewrite strip_prefix_app.
Qed.

Lemma fence_open_split (rest : string) :
  fence_open ++ rest = "```yaml" ++ newline ++ rest.
Proof. reflexivity. Qed.

(** No opening fence starts in [pre]: the pattern does not match there. *)
Lemma match_here_before (c : ascii) (pre rest : string) :
  occurs fence_open (String c pre ++ "```yaml") = false ->
  match_here (String c pre ++ fence_open ++ rest) = None.
Proof.
  intros H. apply occurs_head in H. unfold match_here.
  destruct (strip_prefix fence_open (String c pre ++ fence_open ++ rest))
    as [r|] eqn:E; [|reflexivity].
  rewrite fence_open_split, <- append_assoc in E.
  apply strip_prefix_shorten in E as [r' E].
  - congruence.
  - rewrite length_append, Nat.add_comm. cbn.
    repeat apply le_n_S. apply Nat.le_0_l.
Qed.

Lemma yaml_match_exact (pre y post : string) :
  occurs fence_open (pre ++ "```yaml") = false ->
  occurs fence_close y = false ->
  yaml_match (pre ++ fence_open ++ y ++ fence_close ++ post) = Some y.
Proof.
  intros Hpre Hy. induction pre as [|c pre IH].
  - change ("" ++ fence_open ++ y ++ fence_close ++ post)
      with (fence_open ++ y ++ fence_close ++ post).
    assert (E : match_here (fence_open ++ y ++ fence_close ++ post) = Some y).
    { rewrite match_here_open. now apply lazy_capture_exact. }
    destruct (fence_open ++ y ++ fence_close ++ post);
      cbn [yaml_match]; now rewrite E.
  - change (String c pre ++ fence_open ++ y ++ fence_close ++ post)
      with (String c (pre ++ fence_open ++ y ++ fence_close ++ post)).
    cbn [yaml_match].
    change (String c (pre ++ fence_open ++ y ++ fence_close ++ post))
      with (String c pre ++ fence_open ++ y ++ fence_close ++ post).
    rewrite (match_here_before c pre _ Hpre).
    apply IH. exact (occurs_tail _ c _ Hpre).
Qed.

Lemma yaml_match_first (s y : string) :
  yaml_match s = Some y ->
  exists pre post,
    s = pre ++ fence_open ++ y ++ fence_close ++ post
    /\ occurs fence_close y = false
    /\ occurs fence_open (pre ++ "```yaml") = false.
Proof.
  revert y. induction s as [|c s IH]; intros y H; cbn [yaml_match] in H.
  - destruct (match_here "") eqn:E; discriminate.
  - destruct (match_here (String c s)) as [y0|] eqn:E.
    + injection H as <-. unfold match_here in E.
      destruct (strip_prefix fence_open (String c s)) as [rest|] eqn:Eo;
        [|discriminate].
      apply strip_prefix_inv in Eo.
      destruct (lazy_capture_sound rest y0 E) as [post ->].
      exists "", post. split; [exact Eo|].
      split; [now apply (lazy_capture_minimal _ _ E) | reflexivity].
    + destruct (IH y H) as (pre & post & -> & Hy & Hpre).
      exists (String c pre), post. split; [reflexivity|]. split; [exact Hy|].
      change (String c pre ++ "```yaml") with (String c (pre ++ "```yaml")).
      rewrite occurs_cons.
      destruct (strip_prefix fence_open (String c (pre ++ "```yaml")))
        as [u|] eqn:Eu; [|exact Hpre].
      exfalso.
      apply (strip_prefix_extend _ _ (newline ++ y ++ fence_close ++ post))
        in Eu.
      change (String c (pre ++ "```yaml")) with (String c pre ++ "```yaml") in Eu.
      rewrite append_assoc in Eu.
      unfold match_here in E.
      change (String c (pre ++ fence_open ++ y ++ fence_close ++ post))
        with (String c pre ++ "```yaml" ++ newline ++ y ++ fence_close ++ post)
        in E.
      rewrite Eu in E.
      destruct (lazy_capture_found (u ++ newline ++ y) post) as [y' Ey'].
      rewrite !append_assoc in Ey'. congruence.
Qed.

Lemma yaml_match_found (pre y post : string) :
  exists y', yaml_match (pre ++ fence_open ++ y ++ fence_close ++ post) = Some y'.
Proof.
  induction pre as [|c pre [y' IH]].
  - destruct (lazy_capture_found y post) as [y' E].
    exists y'.
    change ("" ++ fence_open ++ y ++ fence_close ++ post)
      with (fence_open ++ y ++ fence_close ++ post).
    rewrite <- match_here_open in E.
    destruct (fence_open ++ y ++ fence_close ++ post);
      cbn [yaml_match]; now rewrite E.
  - change (String c pre ++ fence_open ++ y ++ fence_close ++ post)
      with (String c (pre ++ fence_open ++ y ++ fence_close ++ post)).
    cbn [yaml_match]. rewrite IH.
    destruct (match_here _); eauto.
Qed.
(** ** What the commands do with a note *)

(** X1. The YAML that the commands read from a note is the text between the
    first opening fence (three backticks, [yaml], a line break) that is
    followed somewhere by a closing fence, and the first closing fence (a
    line break, three backticks) after it: [yaml_match] returns [y] exactly
    when the note is [pre], the opening fence, [y], the closing fence and
    [post], with no closing fence inside [y] and no opening fence starting
    inside [pre]. *)
Theorem X1_yaml_match_is_the_first_fenced_block (content y : string) :
  yaml_match content = Some y
  <-> exists pre post,
        content = pre ++ "```yaml" ++ newline ++ y ++ newline ++ "```" ++ post
        /\ occurs (newline ++ "```") y = false
        /\ occurs ("```yaml" ++ newline) (pre ++ "```yaml") = false.
Proof.
  split.
  - intros H. destruct (yaml_match_first content y H) as (pre & post & E & Hy & Hp).
    exists pre, post. split; [exact E|]. split; [exact Hy | exact Hp].
  - intros (pre & post & -> & Hy & Hp).
    exact (yaml_match_exact pre y post Hp Hy).
Qed.

(** X2. On an active Markdown note the export command answers
    "No YAML content found." and asks nothing of the host exactly when the
    note contains no opening fence followed, after any text, by a closing
    fence; otherwise it asks for one download, named after the note. *)
Theorem X2_export_refuses_iff_no_fenced_block (f : file) :
  extension f = "md" ->
  (export_command (Some f) = ([], "No YAML content found.")
   <-> forall pre y post,
         content f <> pre ++ "```yaml" ++ newline ++ y ++ newline ++ "```" ++ post)
  /\ (forall pre y post,
         content f = pre ++ "```yaml" ++ newline ++ y ++ newline ++ "```" ++ post ->
         exists yaml,
           export_command (Some f)
           = ([Download (basename f ++ ".yaml") yaml],
              "Exported " ++ basename f ++ ".yaml successfully!")).
Proof.
  intros Hext. unfold export_command. rewrite Hext.
  change (negb ("md" =? "md")%string) with false. cbv iota.
  split; [split|].
  - intros H pre y post E.
    destruct (yaml_match_found pre y post) as [y' Ey'].
    change (pre ++ fence_open ++ y ++ fence_close ++ post)
      with (pre ++ "```yaml" ++ newline ++ y ++ newline ++ "```" ++ post) in Ey'.
    rewrite <- E in Ey'. rewrite Ey' in H. discriminate H.
  - intros H. destruct (yaml_match (content f)) as [y|] eqn:E; [|reflexivity].
    destruct (yaml_match_first _ _ E) as (pre & post & Ec & _).
    now elim (H pre y post).
  - intros pre y post E.
    destruct (yaml_match_found pre y post) as [y' Ey'].
    change (pre ++ fence_open ++ y ++ fence_close ++ post)
      with (pre ++ "```yaml" ++ newline ++ y ++ newline ++ "```" ++ post) in Ey'.
    rewrite <- E in Ey'. rewrite Ey'. eauto.
Qed.

Lemma X2_witness :
  (export_command
     (Some {| basename := "Lamp"; extension := "md";
              content := "# Lamp" ++ newline ++ "no block here" |})
   = ([], "No YAML content found.")
   <-> forall pre y post,
         "# Lamp" ++ newline ++ "no block here"
         <> pre ++ "```yaml" ++ newline ++ y ++ newline ++ "```" ++ post)
  /\ (forall pre y post,
         "# Lamp" ++ newline ++ "no block here"
         = pre ++ "```yaml" ++ newline ++ y ++ newline ++ "```" ++ post ->
         exists yaml,
           export_command
             (Some {| basename := "Lamp"; extension := "md";
                      content := "# Lamp" ++ newline ++ "no block here" |})
           = ([Download ("Lamp" ++ ".yaml") yaml],
              "Exported " ++ "Lamp" ++ ".yaml successfully!")).
Proof.
  exact (X2_export_refuses_iff_no_fenced_block
           {| basename := "Lamp"; extension := "md";
              content := "# Lamp" ++ newline ++ "no block here" |}
           eq_refl).
Defined.
Lemma append_empty (s : string) : s ++ "" = s.
Proof.
  induction s as [|c s IH]; simpl; [reflexivity | now rewrite IH].
Qed.

Lemma occurs_char_app (a : ascii) (x y : string) :
  occurs (String a "") (x ++ y)
  = occurs (String a "") x || occurs (String a "") y.
Proof.
  induction x as [|c x IH].
  - reflexivity.
  - change (String c x ++ y) with (String c (x ++ y)).
    rewrite !occurs_cons, IH. cbn [strip_prefix].
    now destruct (Ascii.eqb a c).
Qed.

(** An opening fence starts with a backtick. *)
Lemma no_fence_without_backtick (pre : string) :
  occurs "`" pre = false ->
  occurs fence_open (pre ++ "```yaml") = false.
Proof.
  induction pre as [|c pre IH]; intros H.
  - reflexivity.
  - change (String c pre ++ "```yaml") with (String c (pre ++ "```yaml")).
    rewrite occurs_cons in H |- *. cbn [strip_prefix fence_open append] in H |- *.
    destruct (Ascii.eqb "`" c); [discriminate H | now apply IH].
Qed.

Lemma note_shape (title yaml : string) :
  note title yaml
  = ("# " ++ title ++ newline) ++ fence_open ++ yaml ++ fence_close ++ "".
Proof.
  unfold note, fence_open, fence_close.
  rewrite !append_assoc. reflexivity.
Qed.

(** A note built by the commands gives back the YAML put in it, up to the
    first closing fence of that YAML. *)
Lemma yaml_match_note (title y rest : string) :
  occurs "`" title = false ->
  occurs fence_close y = false ->
  yaml_match (note title y) = Some y
  /\ yaml_match (note title (y ++ fence_close ++ rest)) = Some y.
Proof.
  intros Ht Hy.
  assert (Hp : occurs fence_open (("# " ++ title ++ newline) ++ "```yaml") = false).
  { apply no_fence_without_backtick.
    change ("# " ++ title ++ newline) with ("# " ++ (title ++ newline)).
    rewrite !occurs_char_app, Ht. reflexivity. }
  split.
  - rewrite note_shape. now apply yaml_match_exact.
  - rewrite note_shape, (append_assoc y), (append_assoc fence_close).
    exact (yaml_match_exact _ y (rest ++ fence_close ++ "") Hp Hy).
Qed.

(** X3. Import, then export, gives the file's text back: when the name of
    the imported file, without its extension, has no backtick and the text
    [y] has no closing fence (a line break and three backticks), exporting
    the note that the import creates downloads exactly [y]; when the text
    is [y], a closing fence and more, the export downloads [y] only. *)
Theorem X3_export_after_import (name y rest b : string) :
  occurs "`" (strip_extension name) = false ->
  occurs (newline ++ "```") y = false ->
  (forall path c notice,
      import_file name y = ([CreateFile path c], notice) ->
      export_command (Some {| basename := b; extension := "md"; content := c |})
      = ([Download (b ++ ".yaml") y],
         "Exported " ++ b ++ ".yaml successfully!"))
  /\ (forall path c notice,
         import_file name (y ++ newline ++ "```" ++ rest)
         = ([CreateFile path c], notice) ->
         export_command
           (Some {| basename := b; extension := "md"; content := c |})
         = ([Download (b ++ ".yaml") y],
            "Exported " ++ b ++ ".yaml successfully!")).
Proof.
  intros Hn Hy.
  destruct (yaml_match_note (strip_extension name) y rest Hn Hy) as [E1 E2].
  split; intros path c notice H; unfold import_file in H;
    injection H as _ <- _; unfold export_command; cbn [extension content basename];
    change (negb ("md" =? "md")%string) with false; cbv iota.
  - match goal with
    | |- context [yaml_match ?t] =>
        replace (yaml_match t) with (Some y) by (symmetry; exact E1)
    end.
    reflexivity.
  - match goal with
    | |- context [yaml_match ?t] =>
        replace (yaml_match t) with (Some y) by (symmetry; exact E2)
    end.
    reflexivity.
Qed.

Lemma X3_witness :
  export_command
    (Some {| basename := "scene"; extension := "md";
             content := note "scene" ("scenarios: []") |})
  = ([Download ("scene" ++ ".yaml") "scenarios: []"],
     "Exported " ++ "scene" ++ ".yaml successfully!").
Proof.
  apply (proj1 (X3_export_after_import "scene.yaml" "scenarios: []" "" "scene"
                  eq_refl eq_refl) "scene.md" _ "Imported scene successfully!").
  reflexivity.
Defined.
Lemma occurs_char_remove_separators (a : ascii) (s : string) :
  occurs (String a "") s = false ->
  occurs (String a "") (remove_separators s) = false.
Proof.
  induction s as [|c s IH]; intros H; [reflexivity|].
  rewrite occurs_cons in H. cbn [strip_prefix] in H.
  destruct (Ascii.eqb a c) eqn:E; [discriminate H|].
  cbn [remove_separators]. destruct (removed_from_timestamp c); [now apply IH|].
  rewrite occurs_cons. cbn [strip_prefix]. rewrite E. now apply IH.
Qed.

Lemma occurs_char_substring (a : ascii) (m : nat) (s : string) :
  occurs (String a "") s = false ->
  occurs (String a "") (String.substring 0 m s) = false.
Proof.
  revert s. induction m as [|m IH]; intros s H.
  - now destruct s.
  - destruct s as [|c s]; [reflexivity|].
    rewrite occurs_cons in H. cbn [strip_prefix] in H.
    destruct (Ascii.eqb a c) eqn:E; [discriminate H|].
    cbn [String.substring]. rewrite occurs_cons. cbn [strip_prefix].
    rewrite E. now apply IH.
Qed.

Lemma occurs_char_timestamp (a : ascii) (iso : string) :
  occurs (String a "") iso = false ->
  occurs (String a "") (timestamp iso) = false.
Proof.
  intros H. unfold timestamp.
  now apply occurs_char_substring, occurs_char_remove_separators.
Qed.

(** X4. A versioned copy keeps the YAML of the note it is made from: when
    the note's base name and the clock reading have no backtick, the
    command creates the file [versions/<basename>_<timestamp>.md] (after the
    folder, when the store lacks it), and the YAML read back from that file,
    by a later export or comparison, is the YAML read from the note. *)
Theorem X4_versioned_copy_keeps_the_yaml (f : file) (folder_exists : bool)
  (iso y b : string) :
  extension f = "md" ->
  yaml_match (content f) = Some y ->
  occurs "`" (basename f) = false ->
  occurs "`" iso = false ->
  exists c,
    versioned_copy_command (Some f) folder_exists iso
    = (((if folder_exists then [] else [CreateFolder "versions"])
        ++ [CreateFile
              ("versions/" ++ (basename f ++ "_" ++ timestamp iso) ++ ".md") c])%list,
       "Created versioned copy: " ++ basename f ++ "_" ++ timestamp iso)
    /\ yaml_match c = Some y
    /\ export_command (Some {| basename := b; extension := "md"; content := c |})
       = ([Download (b ++ ".yaml") y],
          "Exported " ++ b ++ ".yaml successfully!").
Proof.
  intros Hext Hy Hb Hiso.
  exists (note (basename f ++ "_" ++ timestamp iso) y).
  assert (Ht : occurs "`" (basename f ++ "_" ++ timestamp iso) = false).
  { rewrite !occurs_char_app, Hb, (occurs_char_timestamp _ _ Hiso). reflexivity. }
  assert (Hc : occurs fence_close y = false).
  { destruct (yaml_match_first _ _ Hy) as (_ & _ & _ & H & _). exact H. }
  destruct (yaml_match_note _ y "" Ht Hc) as [E _].
  split; [|split].
  - unfold versioned_copy_command. rewrite Hext, Hy.
    change (negb ("md" =? "md")%string) with false. reflexivity.
  - exact E.
  - unfold export_command. cbn [extension content basename].
    change (negb ("md" =? "md")%string) with false. cbv iota.
    now rewrite E.
Qed.

Lemma X4_witness :
  exists c,
    versioned_copy_command
      (Some {| basename := "Lamp"; extension := "md";
               content := note "Lamp" "scenarios: []" |})
      false "2026-11-03T02:25:07.123Z"
    = (([CreateFolder "versions"]
        ++ [CreateFile
              ("versions/"
                 ++ ("Lamp" ++ "_" ++ timestamp "2026-11-03T02:25:07.123Z")
                 ++ ".md") c])%list,
       "Created versioned copy: " ++ "Lamp" ++ "_"
         ++ timestamp "2026-11-03T02:25:07.123Z")
    /\ yaml_match c = Some "scenarios: []"
    /\ export_command (Some {| basename := "copy"; extension := "md"; content := c |})
       = ([Download ("copy" ++ ".yaml") "scenarios: []"],
          "Exported " ++ "copy" ++ ".yaml successfully!").
Proof.
  exact (X4_versioned_copy_keeps_the_yaml
           {| basename := "Lamp"; extension := "md";
              content := note "Lamp" "scenarios: []" |}
           false "2026-11-03T02:25:07.123Z" "scenarios: []" "copy"
           eq_refl eq_refl eq_refl eq_refl).
Defined.
Lemma remove_separators_app (a b : string) :
  remove_separators (a ++ b) = remove_separators a ++ remove_separators b.
Proof.
  induction a as [|c a IH]; [reflexivity|].
  change (String c a ++ b) with (String c (a ++ b)).
  cbn [remove_separators]. rewrite IH.
  now destruct (removed_from_timestamp c).
Qed.

Lemma digit_is_kept (c : ascii) :
  is_digit c = true -> removed_from_timestamp c = false.
Proof.
  destruct c as [[] [] [] [] [] [] [] []]; intros H;
    try reflexivity; discriminate H.
Qed.

Lemma remove_separators_digits (s : string) :
  all_digits s = true -> remove_separators s = s.
Proof.
  induction s as [|c s IH]; intros H; [reflexivity|].
  cbn [all_digits] in H. apply andb_true_iff in H as [Hc Hs].
  cbn [remove_separators]. rewrite (digit_is_kept c Hc), IH; auto.
Qed.

Lemma substring_head (x rest : string) :
  String.substring 0 (String.length x) (x ++ rest) = x.
Proof.
  induction x as [|c x IH].
  - now destruct rest.
  - change (String c x ++ rest) with (String c (x ++ rest)).
    cbn [String.length String.substring]. now rewrite IH.
Qed.

(** X5. For a clock reading in the form [toISOString] gives to the years 0
    to 9999, four digits of year and two each of month, day, hour, minute
    and second, separated by [-], [T] and [:] and followed by the
    milliseconds and [Z], the timestamp of a versioned copy is those
    fourteen digits in that order. *)
Theorem X5_timestamp_is_fourteen_digits (Y Mo D h mi s ms : string) :
  all_digits (Y ++ Mo ++ D ++ h ++ mi ++ s) = true ->
  String.length Y = 4 ->
  String.length Mo = 2 -> String.length D = 2 ->
  String.length h = 2 -> String.length mi = 2 -> String.length s = 2 ->
  timestamp
    (Y ++ "-" ++ Mo ++ "-" ++ D ++ "T" ++ h ++ ":" ++ mi ++ ":" ++ s
       ++ "." ++ ms ++ "Z")
  = Y ++ Mo ++ D ++ h ++ mi ++ s.
Proof.
  intros Hd LY LMo LD Lh Lmi Ls. unfold timestamp.
  assert (E : remove_separators
                (Y ++ "-" ++ Mo ++ "-" ++ D ++ "T" ++ h ++ ":" ++ mi ++ ":" ++ s
                   ++ "." ++ ms ++ "Z")
              = (Y ++ Mo ++ D ++ h ++ mi ++ s)
                  ++ remove_separators ("." ++ ms ++ "Z")).
  { rewrite <- (remove_separators_digits _ Hd).
    rewrite !remove_separators_app.
    change (remove_separators "-") with "".
    change (remove_separators "T") with "".
    change (remove_separators ":") with "".
    cbn [append]. rewrite !append_assoc. reflexivity. }
  rewrite E.
  replace 14 with (String.length (Y ++ Mo ++ D ++ h ++ mi ++ s)).
  - apply substring_head.
  - rewrite !length_append, LY, LMo, LD, Lh, Lmi, Ls. reflexivity.
Qed.

Lemma X5_witness :
  timestamp
    ("2026" ++ "-" ++ "11" ++ "-" ++ "03" ++ "T" ++ "02" ++ ":" ++ "25" ++ ":"
       ++ "07" ++ "." ++ "123" ++ "Z")
  = "2026" ++ "11" ++ "03" ++ "02" ++ "25" ++ "07".
Proof.
  exact (X5_timestamp_is_fourteen_digits "2026" "11" "03" "02" "25" "07" "123"
           eq_refl eq_refl eq_refl eq_refl eq_refl eq_refl eq_refl).
Defined.

Lemma all_chars_app (p : ascii -> bool) (a b : string) :
  all_chars p (a ++ b) = all_chars p a && all_chars p b.
Proof.
  induction a as [|c a IH]; [reflexivity|].
  change (String c a ++ b) with (String c (a ++ b)).
  cbn [all_chars]. now rewrite IH, andb_assoc.
Qed.

Lemma extension_here_spec (s : string) :
  extension_here s = true
  <-> exists ext, s = "." ++ ext /\ ext <> ""
                  /\ all_chars not_dot_or_slash ext = true.
Proof.
  split.
  - destruct s as [|c [|d r]]; try discriminate. unfold extension_here.
    intros H. apply andb_true_iff in H as [Hc H].
    apply Ascii.eqb_eq in Hc. subst c.
    exists (String d r). repeat split; [discriminate | exact H].
  - intros (ext & -> & Hne & H). destruct ext as [|d r]; [now elim Hne|].
    unfold extension_here. cbn [append]. now rewrite H.
Qed.

(** A dot with a dot after it does not start the extension. *)
Lemma extension_not_here (c : ascii) (b ext : string) :
  extension_here (String c (b ++ "." ++ ext)) = false.
Proof.
  destruct (b ++ "." ++ ext) as [|d r] eqn:E.
  - destruct b; discriminate E.
  - unfold extension_here. rewrite <- E, all_chars_app.
    cbn [append all_chars]. unfold not_dot_or_slash at 2.
    rewrite Ascii.eqb_refl. cbn [negb andb]. now rewrite !andb_false_r.
Qed.

(** X6. The name under which a file is imported is its name without the
    last extension: a name that ends in a dot and one or more characters
    other than a dot or a slash loses that ending, whatever comes before it
    (nothing, for a name like [.yaml], which leaves the empty name); any
    other name is kept whole. *)
Theorem X6_strip_extension_removes_the_last_extension :
  (forall base ext text,
      ext <> "" -> all_chars not_dot_or_slash ext = true ->
      strip_extension (base ++ "." ++ ext) = base
      /\ import_file (base ++ "." ++ ext) text
         = ([CreateFile (base ++ ".md") (note base text)],
            "Imported " ++ base ++ " successfully!"))
  /\ (forall name,
         (forall base ext,
             ext <> "" -> all_chars not_dot_or_slash ext = true ->
             name <> base ++ "." ++ ext) ->
         strip_extension name = name).
Proof.
  assert (A : forall base ext,
             ext <> "" -> all_chars not_dot_or_slash ext = true ->
             strip_extension (base ++ "." ++ ext) = base).
  { intros base ext Hne H. induction base as [|c b IH].
    - assert (E : extension_here ("" ++ "." ++ ext) = true).
      { apply extension_here_spec. exists ext. auto. }
      destruct ext as [|d r]; [now elim Hne|].
      cbn [append strip_extension] in E |- *. now rewrite E.
    - change (String c b ++ "." ++ ext) with (String c (b ++ "." ++ ext)).
      cbn [strip_extension]. now rewrite extension_not_here, IH. }
  split.
  - intros base ext text Hne H. split; [now apply A|].
    unfold import_file. now rewrite (A base ext Hne H).
  - intros name. induction name as [|c r IH]; intros H; [reflexivity|].
    cbn [strip_extension].
    destruct (extension_here (String c r)) eqn:E.
    + apply extension_here_spec in E as (ext & E & Hne & Hx).
      now elim (H "" ext Hne Hx).
    + rewrite IH; [reflexivity|].
      intros base ext Hne Hx ->. now elim (H (String c base) ext Hne Hx).
Qed.

Lemma X6_witness :
  (strip_extension ("my.scene" ++ "." ++ "yaml") = "my.scene"
   /\ import_file ("my.scene" ++ "." ++ "yaml") "scenarios: []"
      = ([CreateFile ("my.scene" ++ ".md") (note "my.scene" "scenarios: []")],
         "Imported " ++ "my.scene" ++ " successfully!"))
  /\ strip_extension "README" = "README".
Proof.
  split.
  - apply (proj1 X6_strip_extension_removes_the_last_extension
             "my.scene" "yaml" "scenarios: []"); [discriminate | reflexivity].
  - apply (proj2 X6_strip_extension_removes_the_last_extension "README").
    intros base ext _ _ E.
    assert (T : occurs "." "README" = true)
      by (apply occurs_iff; exists base, ext; exact E).
    discriminate T.
Defined.
Import Shapes.
(** ** Documents that pass the validator *)

Lemma is_non_empty_string_spec (v : value) :
  is_non_empty_string v = negb (not_a_string v).
Proof.
  unfold not_a_string. destruct v; simpl; try reflexivity;
    try (now rewrite orb_true_r).
  now rewrite orb_false_r, negb_involutive.
Qed.

Lemma trigger_violations_nil (i j : nat) (t : value) :
  trigger_violations i j t = [] <-> trigger_valid t = true.
Proof.
  unfold trigger_violations, trigger_valid, type_invalid, value_absent.
  split.
  - intros H. apply app_eq_nil in H as [H1 H2].
    destruct (not_a_string (get_opt (get_opt t "trigger") "type")) eqn:Ety;
      [discriminate H1|].
    destruct (get_opt t "trigger") as [| | | | |l|m]; try discriminate H2.
    cbn [has_property] in H2.
    rewrite is_non_empty_string_spec.
    change (get_opt (VObj m) "type") with (or_undefined (lookup "type" m)) in Ety.
    rewrite Ety. now destruct (lookup "value" m).
  - destruct (get_opt t "trigger") as [| | | | |l|m]; try discriminate.
    intros H. apply andb_true_iff in H as [H1 H2].
    rewrite is_non_empty_string_spec in H1.
    change (get_opt (VObj m) "type") with (or_undefined (lookup "type" m)).
    apply negb_true_iff in H1. rewrite H1. cbn [has_property].
    now destruct (lookup "value" m).
Qed.

Lemma step_violations_nil (i k : nat) (st : value) :
  step_violations i k st = [] <-> step_valid st = true.
Proof.
  unfold step_violations, step_invalid, step_valid.
  destruct (truthy (get_opt st "type")); cbn [negb orb andb];
    [|split; discriminate].
  destruct (get_opt (get_opt st "parameters") "items");
    cbn [truthy isArray negb orb]; rewrite ?orb_true_r;
    split; intros H; try discriminate H; reflexivity.
Qed.

Lemma flat_mapi_from_eq_nil {A B : Type} (g : nat -> A -> list B) (l : list A) :
  forall i,
    flat_mapi_from g i l = [] ->
    forall j x, nth_error l j = Some x -> g (i + j) x = [].
Proof.
  induction l as [|y l IH]; intros i H j x Hj.
  - destruct j; discriminate.
  - cbn [flat_mapi_from] in H. apply app_eq_nil in H as [H1 H2].
    destruct j as [|j]; cbn in Hj.
    + injection Hj as <-. now rewrite Nat.add_0_r.
    + rewrite Nat.add_succ_r. now apply (IH (S i)).
Qed.

Lemma flat_mapi_nil_iff {A B : Type} (g : nat -> A -> list B) (ok : A -> bool)
  (l : list A) :
  (forall i x, g i x = [] <-> ok x = true) ->
  (flat_mapi g l = [] <-> forallb ok l = true).
Proof.
  intros H. unfold flat_mapi. split.
  - intros E. apply forallb_forall. intros x Hx.
    apply In_nth_error in Hx as [j Hj].
    apply (H (0 + j)). now apply (flat_mapi_from_eq_nil g l 0 E j).
  - intros E. apply flat_mapi_from_nil. intros j x Hj.
    apply H. rewrite forallb_forall in E. apply E.
    eapply nth_error_In. exact Hj.
Qed.

Lemma scenario_violations_nil (i : nat) (s : value) :
  scenario_violations i s = [] <-> scenario_valid s = true.
Proof.
  unfold scenario_violations, scenario_valid, id_error, name_error,
    trigger_errors, step_errors.
  rewrite !is_non_empty_string_spec.
  destruct (not_a_string (get_opt s "id")); cbn [negb andb app];
    [split; discriminate|].
  destruct (not_a_string (get_opt s "name")); cbn [negb andb app];
    [split; discriminate|].
  destruct (get_opt s "triggers") as [| | | | |ts|];
    try (split; discriminate).
  destruct (get_opt s "steps") as [| | | | |sts|]; rewrite !app_nil_l;
    try (rewrite andb_false_r; split; [|discriminate];
         intros H; apply app_eq_nil in H as [_ H]; discriminate H).
  rewrite andb_true_iff.
  rewrite <- (flat_mapi_nil_iff (trigger_violations i) trigger_valid ts)
    by (intros; apply trigger_violations_nil).
  rewrite <- (flat_mapi_nil_iff (step_violations i) step_valid sts)
    by (intros; apply step_violations_nil).
  split.
  - intros H. now apply app_eq_nil in H.
  - intros [-> ->]. reflexivity.
Qed.

Lemma scenario_valid_entry_ok (s : value) :
  scenario_valid s = true -> scenario_entry_ok s = true.
Proof.
  unfold scenario_valid, scenario_entry_ok. intros H.
  apply andb_true_iff in H as [H Hst]. apply andb_true_iff in H as [H Htr].
  apply andb_true_iff in H as [Hid _].
  assert (Hs : non_null s = true).
  { apply get_opt_non_null with (k := "id"). now destruct (get_opt s "id"). }
  rewrite Hs. cbn [andb]. apply andb_true_iff. split.
  - destruct (get_opt s "triggers") as [| | | | |ts|]; try reflexivity.
    apply forallb_forall. intros t Ht. rewrite forallb_forall in Htr.
    specialize (Htr t Ht). unfold trigger_valid in Htr. unfold trigger_entry_ok.
    now destruct (get_opt t "trigger").
  - destruct (get_opt s "steps") as [| | | | |sts|]; try reflexivity.
    apply forallb_forall. intros x Hx. rewrite forallb_forall in Hst.
    specialize (Hst x Hx). unfold step_valid in Hst.
    apply andb_true_iff in Hst as [Hty _].
    apply get_opt_non_null with (k := "type"). now apply truthy_non_null.
Qed.
Lemma ordered_errors_nil (ss : list value) :
  ordered_errors ss = [] <-> forallb scenario_valid ss = true.
Proof.
  unfold ordered_errors, ordered_violations.
  rewrite <- (flat_mapi_nil_iff scenario_violations scenario_valid ss)
    by (intros; apply scenario_violations_nil).
  split.
  - now apply map_eq_nil.
  - intros ->. reflexivity.
Qed.

Lemma valid_entries_ok (ss : list value) :
  forallb scenario_valid ss = true -> forallb scenario_entry_ok ss = true.
Proof.
  rewrite !forallb_forall. intros H s Hs.
  now apply scenario_valid_entry_ok, H.
Qed.

Lemma valid_notice_iff (data : value) :
  Validator.validate_command data = Validator.Notice "YAML is valid!"
  <-> valid data = true.
Proof.
  unfold valid, Validator.validate_command.
  destruct (get_opt data "scenarios") as [| | | | |ss|] eqn:E;
    try (rewrite check_document_rejects by (now rewrite E);
         split; discriminate).
  rewrite (check_document_array data ss [] E). unfold bind, ret.
  destruct (forallb scenario_entry_ok ss) eqn:Hok.
  - rewrite (check_scenarios_returns ss [] Hok). cbn [app].
    rewrite <- ordered_errors_nil.
    destruct (ordered_errors ss) as [|e errs]; cbn [nonempty].
    + split; reflexivity.
    + split; discriminate.
  - destruct (check_scenarios_throws ss [] Hok) as [st' ->].
    split; [discriminate|].
    intros H. apply valid_entries_ok in H. congruence.
Qed.

(** X7. The validator reports "YAML is valid!" exactly for the documents
    whose [scenarios] is a sequence of scenarios that each have a non-empty
    string for [id] and for [name], a sequence of triggers whose [trigger]
    is a mapping with a non-empty string [type] and the key [value], and a
    sequence of steps with a truthy [type] and a sequence for
    [parameters.items].  Such a document makes no check raise. *)
Theorem X7_valid_notice_iff_well_formed (data : value) :
  (Validator.validate_command data = Validator.Notice "YAML is valid!"
   <-> valid data = true)
  /\ (valid data = true -> Validator.validate data = Ok []).
Proof.
  split; [apply valid_notice_iff|].
  unfold valid. intros H.
  destruct (get_opt data "scenarios") as [| | | | |ss|] eqn:E;
    try discriminate H.
  rewrite (validate_returns data ss E (valid_entries_ok ss H)).
  now rewrite (proj2 (ordered_errors_nil ss) H).
Qed.

(** X8. The validator command ends in the parsing-error notice, for a
    [TypeError] of one of its checks, exactly when [scenarios] is a sequence
    and has a null scenario, or a scenario with a null trigger or step
    entry or with a trigger entry whose [trigger] is not an object; on every
    other document it reports a list of errors or "YAML is valid!". *)
Theorem X8_parsing_error_notice_iff_unreadable_entry (data : value) :
  (Validator.validate_command data = Validator.ParsingErrorNotice TypeError
   <-> ValidatorSpec.entries_ok data = false)
  /\ ((exists errs, Validator.validate data = Ok errs)
      <-> ValidatorSpec.entries_ok data = true).
Proof.
  split; [|apply validate_returns_iff].
  unfold ValidatorSpec.entries_ok, Validator.validate_command.
  destruct (get_opt data "scenarios") as [| | | | |ss|] eqn:E;
    try (rewrite check_document_rejects by (now rewrite E);
         split; discriminate).
  rewrite (check_document_array data ss [] E). unfold bind, ret.
  destruct (forallb scenario_entry_ok ss) eqn:Hok.
  - rewrite (check_scenarios_returns ss [] Hok).
    destruct (nonempty ([] ++ ordered_errors ss)); split; discriminate.
  - destruct (check_scenarios_throws ss [] Hok) as [st' ->].
    split; reflexivity.
Qed.
(** ** Conversion to a string *)

Lemma value_array_ind (P : value -> Prop) :
  (forall v, isArray v = false -> P v) ->
  (forall l, Forall P l -> P (VArr l)) ->
  forall v, P v.
Proof.
  intros base arr. fix IH 1. intros v.
  destruct v as [| | b | n | s | l | m]; try (apply base; reflexivity).
  apply arr. induction l as [|x l IHl]; constructor; [apply IH | exact IHl].
Qed.

(** A sequence is converted element by element. *)
Lemma to_string_array (l : list value) :
  to_string (VArr l)
  = match map_result element_text l with
    | Ok ts => Ok (String.concat "," ts)
    | Throw e => Throw e
    end.
Proof.
  remember (map_result element_text l) as texts eqn:E.
  cbn [to_string].
  match goal with
  | |- context [match ?X with Ok _ => _ | Throw _ => _ end] =>
      assert (H : X = texts)
  end.
  { subst texts. clear. induction l as [|x r IH]; [reflexivity|].
    cbn [map_result]. rewrite <- IH. destruct x; reflexivity. }
  now rewrite H.
Qed.

Lemma to_string_cases (v : value) :
  (convertible v = true -> exists t, to_string v = Ok t)
  /\ (convertible v = false -> to_string v = Throw TypeError).
Proof.
  induction v as [v Hv | l Hl] using value_array_ind.
  - destruct v as [| | [|] | n | s | l | m]; try discriminate Hv;
      cbn [to_string convertible];
      try destruct (lookup "toString" m);
      split; try discriminate; eauto.
  - rewrite to_string_array. cbn [convertible].
    assert (H : (forallb convertible l = true ->
                 exists ts, map_result element_text l = Ok ts)
                /\ (forallb convertible l = false ->
                    map_result element_text l = Throw TypeError)).
    { induction Hl as [|x r Hx Hr IH];
        [split; [intros _; eexists; reflexivity | discriminate]|].
      destruct Hx as [Hx1 Hx2]. destruct IH as [IH1 IH2].
      cbn [forallb map_result].
      assert (Ex : (convertible x = true -> exists t, element_text x = Ok t)
                   /\ (convertible x = false ->
                       element_text x = Throw TypeError)).
      { destruct x; try exact (conj Hx1 Hx2);
          (split; [intros _; eexists; reflexivity | discriminate]). }
      destruct Ex as [Ex1 Ex2]. destruct (convertible x).
      - destruct (Ex1 eq_refl) as [t ->]. cbn [andb]. split.
        + intros H. destruct (IH1 H) as [ts ->]. eauto.
        + intros H. now rewrite (IH2 H).
      - rewrite (Ex2 eq_refl). split; [discriminate | reflexivity]. }
    destruct H as [H1 H2]. split.
    + intros H. destruct (H1 H) as [ts ->]. eauto.
    + intros H. now rewrite (H2 H).
Qed.

Lemma to_string_returns (v : value) :
  convertible v = true -> to_string v = Ok (text v).
Proof.
  intros H. destruct (proj1 (to_string_cases v) H) as [t E].
  unfold text. now rewrite E.
Qed.

Lemma to_string_throws (v : value) :
  convertible v = false -> to_string v = Throw TypeError.
Proof. apply to_string_cases. Qed.

(** ** The trace formatter against the list of lines *)

Lemma simulate_trigger_returns (t : value) (j : nat) (st : list string) :
  trigger_readable t = true ->
  Simulator.simulate_trigger t j st = ((st ++ [trigger_line j t])%list, Ok tt).
Proof.
  unfold trigger_readable. intros H. apply andb_true_iff in H as [Hn Hc].
  pose proof (get_opt_non_null _ _ Hn) as Ht.
  unfold Simulator.simulate_trigger, trigger_line.
  rewrite !(get_non_null t "trigger" Ht). run.
  rewrite !(get_non_null _ "value" Hn), !(get_non_null _ "type" Hn).
  rewrite (to_string_returns _ Hc).
  destruct (get_opt (get_opt t "trigger") "value") as [| | [|] | n | s | l | m];
    try reflexivity;
    cbv beta iota delta [typeof String.eqb Ascii.eqb Bool.eqb];
    match goal with
    | |- context [stringify ?v] => destruct (stringify v); reflexivity
    end.
Qed.

Lemma simulate_trigger_throws (t : value) (j : nat) (st : list string) :
  trigger_readable t = false ->
  exists st', Simulator.simulate_trigger t j st = (st', Throw TypeError).
Proof.
  unfold trigger_readable. intros H. unfold Simulator.simulate_trigger.
  destruct (non_null t) eqn:Ht;
    [|rewrite !(get_null t "trigger" Ht); run; eauto].
  rewrite !(get_non_null t "trigger" Ht). run.
  destruct (non_null (get_opt t "trigger")) eqn:Hn;
    [|rewrite !(get_null _ "value" Hn); eauto].
  cbn [andb] in H.
  rewrite !(get_non_null _ "value" Hn), !(get_non_null _ "type" Hn).
  rewrite (to_string_throws _ H).
  destruct (String.eqb (typeof (get_opt (get_opt t "trigger") "value"))
              "string"); eauto.
Qed.

Lemma render_item_returns (it : value) :
  item_readable it = true -> Simulator.render_item it = Ok (item_text it).
Proof.
  unfold item_readable. intros H.
  apply andb_true_iff in H as [H Hid]. apply andb_true_iff in H as [Hit Hty].
  unfold Simulator.render_item, item_text.
  rewrite !(get_non_null it _ Hit).
  now rewrite (to_string_returns _ Hty), (to_string_returns _ Hid).
Qed.

Lemma render_item_throws (it : value) :
  item_readable it = false -> Simulator.render_item it = Throw TypeError.
Proof.
  unfold item_readable. intros H. unfold Simulator.render_item.
  destruct (non_null it) eqn:Hit; [|now rewrite !(get_null it _ Hit)].
  rewrite !(get_non_null it _ Hit). cbn [andb] in H.
  destruct (convertible (get_opt it "type")) eqn:Hty;
    [|now rewrite (to_string_throws _ Hty)].
  rewrite (to_string_returns _ Hty). cbn [andb] in H.
  now rewrite (to_string_throws _ H).
Qed.

Lemma render_items_returns (items : list value) :
  forallb item_readable items = true ->
  map_result Simulator.render_item items = Ok (map item_text items).
Proof.
  induction items as [|it items IH]; intros H; [reflexivity|].
  cbn [forallb] in H. apply andb_true_iff in H as [Hit H].
  cbn [map_result map].
  now rewrite (render_item_returns it Hit), (IH H).
Qed.

Lemma render_items_throws (items : list value) :
  forallb item_readable items = false ->
  map_result Simulator.render_item items = Throw TypeError.
Proof.
  induction items as [|it items IH]; intros H; [discriminate|].
  cbn [forallb] in H. cbn [map_result].
  destruct (item_readable it) eqn:Hit.
  - now rewrite (render_item_returns it Hit), (IH H).
  - now rewrite (render_item_throws it Hit).
Qed.

Lemma append_non_empty (a b : string) : b <> "" -> a ++ b <> "".
Proof.
  intros Hb. destruct a; [exact Hb | discriminate].
Qed.

Lemma item_text_non_empty (it : value) : item_text it <> "".
Proof.
  unfold item_text. apply append_non_empty. discriminate.
Qed.

Lemma join_items_non_empty (it : value) (items : list value) :
  String.eqb (join ", " (map item_text (it :: items))) "" = false.
Proof.
  apply String.eqb_neq. unfold join. cbn [map String.concat].
  destruct (map item_text items).
  - apply item_text_non_empty.
  - intros H. destruct (item_text it) eqn:E; [|discriminate H].
    now apply (item_text_non_empty it).
Qed.

Lemma simulate_step_returns (x : value) (k : nat) (st : list string) :
  step_readable x = true ->
  Simulator.simulate_step x k st = ((st ++ [step_line k x])%list, Ok tt).
Proof.
  unfold step_readable. intros H. apply andb_true_iff in H as [H Hty].
  destruct (get_opt (get_opt x "parameters") "items") as [| | | | |items|] eqn:E;
    try discriminate H.
  assert (Hp : non_null (get_opt x "parameters") = true).
  { apply get_opt_non_null with (k := "items"). now rewrite E. }
  pose proof (get_opt_non_null _ _ Hp) as Hx.
  unfold Simulator.simulate_step, step_line.
  rewrite !(get_non_null x _ Hx). run.
  rewrite (get_non_null _ "items" Hp), E. cbn [map_array].
  rewrite (render_items_returns items H), (to_string_returns _ Hty).
  destruct items as [|it items]; [reflexivity|].
  now rewrite join_items_non_empty.
Qed.

Lemma simulate_step_throws (x : value) (k : nat) (st : list string) :
  step_readable x = false ->
  exists st', Simulator.simulate_step x k st = (st', Throw TypeError).
Proof.
  unfold step_readable. intros H. unfold Simulator.simulate_step.
  destruct (non_null x) eqn:Hx;
    [|rewrite !(get_null x _ Hx); run; eauto].
  rewrite !(get_non_null x _ Hx). run.
  destruct (non_null (get_opt x "parameters")) eqn:Hp;
    [|rewrite (get_null _ "items" Hp); eauto].
  rewrite (get_non_null _ "items" Hp).
  destruct (get_opt (get_opt x "parameters") "items") as [| | | | |items|];
    try (cbn [map_array]; eauto; fail).
  cbn [map_array].
  destruct (forallb item_readable items) eqn:Hits;
    [|rewrite (render_items_throws items Hits); eauto].
  rewrite (render_items_returns items Hits). cbn [andb] in H.
  rewrite (to_string_throws _ H). eauto.
Qed.

Lemma simulate_scenario_returns (s : value) (i : nat) (st : list string) :
  scenario_readable s = true ->
  Simulator.simulate_scenario s i st = ((st ++ scenario_trace i s)%list, Ok tt).
Proof.
  unfold scenario_readable. intros H.
  apply andb_true_iff in H as [H Hst]. apply andb_true_iff in H as [H Htr].
  apply andb_true_iff in H as [Hs Hname].
  unfold Simulator.simulate_scenario, scenario_trace.
  rewrite !(get_non_null s _ Hs). run. rewrite (to_string_returns _ Hname).
  destruct (get_opt s "triggers") as [| | | | |ts|]; try discriminate Htr.
  destruct (get_opt s "steps") as [| | | | |sts|]; try discriminate Hst.
  unfold forEach, flat_mapi.
  rewrite (forEach_from_returns _ (fun j t => [trigger_line j t]));
    [|intros t j st' Ht; apply simulate_trigger_returns;
      rewrite forallb_forall in Htr; now apply Htr].
  rewrite (forEach_from_returns _ (fun k x => [step_line k x]));
    [|intros x k st' Hx; apply simulate_step_returns;
      rewrite forallb_forall in Hst; now apply Hst].
  rewrite <- !app_assoc. reflexivity.
Qed.

Lemma simulate_scenario_throws (s : value) (i : nat) (st : list string) :
  scenario_readable s = false ->
  exists st', Simulator.simulate_scenario s i st = (st', Throw TypeError).
Proof.
  unfold scenario_readable. intros H. unfold Simulator.simulate_scenario.
  destruct (non_null s) eqn:Hs;
    [|rewrite !(get_null s _ Hs); run; eauto].
  rewrite !(get_non_null s _ Hs). run. cbn [andb] in H.
  destruct (convertible (get_opt s "name")) eqn:Hname;
    [|rewrite (to_string_throws _ Hname); eauto].
  rewrite (to_string_returns _ Hname). cbn [andb] in H.
  destruct (get_opt s "triggers") as [| | | | |ts|];
    try (unfold forEach; run; eauto; fail).
  destruct (forallb trigger_readable ts) eqn:Hts.
  - unfold forEach at 1.
    rewrite (forEach_from_returns _ (fun j t => [trigger_line j t]));
      [|intros t j st' Ht; apply simulate_trigger_returns;
        rewrite forallb_forall in Hts; now apply Hts].
    cbn [andb] in H.
    destruct (get_opt s "steps") as [| | | | |sts|];
      try (unfold forEach; run; eauto; fail).
    unfold forEach.
    apply forEach_from_throws with (ok := step_readable); [| |exact H].
    + intros x k st' _ Hx. rewrite simulate_step_returns by exact Hx. eauto.
    + intros x k st' _ Hx. now apply simulate_step_throws.
  - unfold forEach at 1.
    destruct (forEach_from_throws Simulator.simulate_trigger trigger_readable ts
                (fun t j st' _ Ht =>
                   ex_intro _ _ (simulate_trigger_returns t j st' Ht))
                (fun t j st' _ Ht => simulate_trigger_throws t j st' Ht)
                Hts 0
                (st ++ [("Scenario " ++ string_of_nat i ++ ": "
                           ++ text (get_opt s "name"))%string])%list)
      as [st' ->].
    eauto.
Qed.

Lemma simulate_returns (data : value) (ss : list value) :
  get_opt data "scenarios" = VArr ss -> ss <> [] ->
  forallb scenario_readable ss = true ->
  Simulator.simulate data
  = Ok ("Simulation:" ++ newline ++ join newline (trace ss)).
Proof.
  intros Hd Hne H. unfold Simulator.simulate.
  assert (Hn : non_null data = true).
  { apply get_opt_non_null with (k := "scenarios"). now rewrite Hd. }
  rewrite (get_non_null data _ Hn), Hd.
  destruct ss as [|s0 ss]; [now elim Hne|].
  change (negb (truthy (get_opt (VArr (s0 :: ss)) "length"))) with false.
  cbv iota. rewrite bind_lift_ok. unfold forEach, trace, flat_mapi.
  rewrite (forEach_from_returns _ scenario_trace); [reflexivity|].
  intros s i st Hs. apply simulate_scenario_returns.
  rewrite forallb_forall in H. now apply H.
Qed.

Lemma simulate_throws (data : value) :
  simulable data = false -> Simulator.simulate data = Throw TypeError.
Proof.
  unfold simulable, Simulator.simulate. intros H.
  destruct (negb (truthy (get_opt (get_opt data "scenarios") "length"))) eqn:El;
    [discriminate H|].
  assert (Hn : non_null data = true).
  { apply get_opt_non_null with (k := "scenarios").
    apply get_opt_non_null with (k := "length").
    apply truthy_non_null. now apply negb_false_iff in El. }
  rewrite (get_non_null data _ Hn), bind_lift_ok.
  destruct (get_opt data "scenarios") as [| | | | |ss|]; try reflexivity.
  unfold forEach.
  destruct (forEach_from_throws Simulator.simulate_scenario scenario_readable ss
              (fun s i st _ Hs =>
                 ex_intro _ _ (simulate_scenario_returns s i st Hs))
              (fun s i st _ Hs => simulate_scenario_throws s i st Hs)
              H 0 []) as [st' ->].
  reflexivity.
Qed.



Lemma forallb_ext_in {A : Type} (f g : A -> bool) (l : list A) :
  (forall x, In x l -> f x = g x) -> forallb f l = forallb g l.
Proof.
  induction l as [|x l IH]; intros H; [reflexivity|].
  cbn [forallb]. rewrite (H x (or_introl eq_refl)), IH; [reflexivity|].
  intros y Hy. apply H. now right.
Qed.

Lemma valid_scenario_readable (s : value) :
  scenario_valid s = true ->
  scenario_readable s
  = match get_opt s "steps" with
    | VArr sts =>
        forallb
          (fun st =>
             match get_opt (get_opt st "parameters") "items" with
             | VArr items => forallb item_readable items
             | _ => true
             end
             && convertible (get_opt st "type"))
          sts
    | _ => true
    end.
Proof.
  intros H. pose proof (scenario_valid_entry_ok s H) as Hok.
  unfold scenario_valid in H. unfold scenario_readable.
  apply andb_true_iff in H as [H Hst]. apply andb_true_iff in H as [H Htr].
  apply andb_true_iff in H as [_ Hname].
  unfold scenario_entry_ok in Hok.
  apply andb_true_iff in Hok as [Hok _]. apply andb_true_iff in Hok as [Hs _].
  rewrite Hs. cbn [andb].
  replace (convertible (get_opt s "name")) with true
    by (now destruct (get_opt s "name")).
  cbn [andb].
  destruct (get_opt s "triggers") as [| | | | |ts|]; try discriminate Htr.
  destruct (get_opt s "steps") as [| | | | |sts|]; try discriminate Hst.
  replace (forallb trigger_readable ts) with true.
  - cbn [andb]. apply forallb_ext_in. intros x Hx.
    rewrite forallb_forall in Hst. specialize (Hst x Hx).
    unfold step_valid in Hst. apply andb_true_iff in Hst as [_ Hst].
    unfold step_readable.
    now destruct (get_opt (get_opt x "parameters") "items").
  - symmetry. apply forallb_forall. intros t Ht.
    rewrite forallb_forall in Htr. specialize (Htr t Ht).
    unfold trigger_valid in Htr. unfold trigger_readable.
    destruct (get_opt t "trigger") as [| | | | | |m] eqn:E;
      try discriminate Htr.
    apply andb_true_iff in Htr as [Hty _]. cbn [non_null andb].
    change (get_opt (VObj m) "type") with (or_undefined (lookup "type" m)).
    now destruct (or_undefined (lookup "type" m)).
Qed.

Lemma valid_simulable (data : value) :
  valid data = true -> simulable data = steps_writable data.
Proof.
  unfold valid, simulable, steps_writable. intros H.
  destruct (get_opt data "scenarios") as [| | | | |ss|]; try discriminate H.
  destruct ss as [|s0 ss]; [reflexivity|].
  change (negb (truthy (get_opt (VArr (s0 :: ss)) "length"))) with false.
  cbv iota. apply forallb_ext_in. intros s Hs.
  apply valid_scenario_readable.
  rewrite forallb_forall in H. now apply H.
Qed.

(** X10. A document that the validator reports valid can be simulated
    exactly when every step can be written: no item of its steps is null,
    and the [type] of every step and the [type] and the [id] of every item
    convert to a string, which every value does but a mapping with a key
    [toString] and a sequence that holds such a mapping.  The validator
    checks that the [type] of a step is truthy and that [parameters.items]
    is a sequence, but not what they hold; the trace formatter reads [type]
    and [id] of every item and writes them, and the [type] of the step,
    with a template literal. *)
Theorem X10_valid_document_simulates_iff_steps_writable (data : value) :
  Validator.validate_command data = Validator.Notice "YAML is valid!" ->
  ((exists out, Simulator.simulate data = Ok out)
   <-> steps_writable data = true)
  /\ (steps_writable data = false -> Simulator.simulate data = Throw TypeError).
Proof.
  intros H. apply valid_notice_iff in H.
  rewrite <- (valid_simulable data H). split.
  - split.
    + intros [out E]. destruct (simulable data) eqn:S; [reflexivity|].
      rewrite (simulate_throws data S) in E. discriminate E.
    + intros S. unfold simulable in S. pose proof H as H'. unfold valid in H'.
      destruct (get_opt data "scenarios") as [| | | | |ss|] eqn:Hd;
        try discriminate H'.
      destruct ss as [|s0 ss].
      * exists "No scenarios to simulate.".
        unfold Simulator.simulate. rewrite Hd. reflexivity.
      * rewrite (simulate_returns data (s0 :: ss) Hd ltac:(discriminate) S).
        eauto.
  - apply simulate_throws.
Qed.

Lemma X10_witness :
  (((exists out, Simulator.simulate Samples.template = Ok out)
    <-> steps_writable Samples.template = true)
   /\ (steps_writable Samples.template = false ->
       Simulator.simulate Samples.template = Throw TypeError))
  /\ Simulator.simulate Samples.null_item = Throw TypeError
  /\ Simulator.simulate Samples.step_typed_by_a_mapping = Throw TypeError.
Proof.
  split; [|split].
  - exact (X10_valid_document_simulates_iff_steps_writable Samples.template
             eq_refl).
  - exact (proj2 (X10_valid_document_simulates_iff_steps_writable
                    Samples.null_item eq_refl) eq_refl).
  - exact (proj2 (X10_valid_document_simulates_iff_steps_writable
                    Samples.step_typed_by_a_mapping eq_refl) eq_refl).
Defined.
(** ** More on the differ *)

Lemma strict_neq_false (a b : option string) :
  strict_neq a b = false <-> a = b.
Proof.
  destruct a as [x|], b as [y|]; simpl; split; intros H;
    try discriminate H; try reflexivity.
  - apply negb_false_iff, String.eqb_eq in H. now subst.
  - injection H as ->. now rewrite String.eqb_refl.
Qed.

(** The text of a list of change lines is never the sentinel. *)
Lemma join_changes_not_sentinel (current version : value) (cs : list value) :
  get_opt current "scenarios" = VArr cs ->
  expected_changes current version <> [] ->
  join newline (expected_changes current version) <> Differ.no_differences.
Proof.
  intros Hc Hne E.
  destruct (expected_changes current version) as [|line l] eqn:El;
    [now elim Hne|].
  assert (Hin : In line (expected_changes current version))
    by (rewrite El; now left).
  apply (in_expected_changes current version cs line Hc) in Hin
    as (i & s & f & _ & _ & _ & ->).
  unfold join in E. cbn [String.concat] in E.
  unfold Differ.change_line, Differ.path in E.
  destruct l; rewrite !append_assoc in E; discriminate E.
Qed.

(** X11. [simpleDiff] returns a text exactly when [current.scenarios] is a
    sequence that is empty, or has no null entry while [version.scenarios]
    is not null; on every other pair of documents, a document without
    [scenarios] among them, it raises a [TypeError]. *)
Theorem X11_differ_returns_iff_readable (current version : value) :
  ((exists out, Differ.simpleDiff current version = Ok out)
   <-> DifferSpec.entries_ok current version = true)
  /\ (DifferSpec.entries_ok current version = false ->
      Differ.simpleDiff current version = Throw TypeError).
Proof.
  split; [apply simpleDiff_returns_iff|].
  intros H. unfold Differ.simpleDiff.
  destruct (collect_changes_throws current version H) as [st' ->].
  reflexivity.
Qed.

(** X12. When [simpleDiff] returns, it returns "No differences found."
    exactly when, at every index of [current.scenarios], each of [name],
    [triggers] and [steps] serializes to the same text in the scenario and
    in [version.scenarios[i] || {}]; a text of change lines is never
    mistaken for the sentinel. *)
Theorem X12_sentinel_iff_no_field_differs (current version : value)
  (cs : list value) :
  get_opt current "scenarios" = VArr cs ->
  DifferSpec.entries_ok current version = true ->
  (Differ.simpleDiff current version = Ok "No differences found."
   <-> forall i s f,
         nth_error cs i = Some s -> In f ["name"; "triggers"; "steps"] ->
         stringify (get_opt s f)
         = stringify (get_opt (other_scenario version i) f)).
Proof.
  intros Hc Hok. rewrite (simpleDiff_returns current version Hok). split.
  - intros H i s f Hi Hf.
    destruct (expected_changes current version) as [|line l] eqn:El.
    + apply strict_neq_false.
      destruct (strict_neq (stringify (get_opt s f))
                  (stringify (get_opt (other_scenario version i) f))) eqn:E;
        [|reflexivity].
      assert (Hin : In (Differ.change_line (get_opt s f)
                          (get_opt (other_scenario version i) f)
                          (Differ.path i f))
                      (expected_changes current version)).
      { apply (in_expected_changes current version cs _ Hc).
        exists i, s, f. auto. }
      rewrite El in Hin. destruct Hin.
    + cbn [nonempty] in H. injection H as H. exfalso.
      apply (join_changes_not_sentinel current version cs Hc); [|now rewrite El].
      rewrite El. discriminate.
  - intros H. now rewrite (no_changes current version cs Hc H).
Qed.

Lemma X12_witness :
  Differ.simpleDiff Samples.newer Samples.older = Ok "No differences found."
  <-> forall i s f,
        nth_error
          [VObj [("id", VStr "new"); ("name", VStr "Lamp"); ("icon", VStr "sun");
                 ("triggers", VArr [VNum 1]); ("steps", VArr [])]] i = Some s ->
        In f ["name"; "triggers"; "steps"] ->
        stringify (get_opt s f)
        = stringify (get_opt (other_scenario Samples.older i) f).
Proof.
  exact (X12_sentinel_iff_no_field_differs Samples.newer Samples.older _
           eq_refl eq_refl).
Defined.
Lemma X11_witness :
  Differ.simpleDiff Samples.no_scenarios Samples.template = Throw TypeError.
Proof.
  apply (proj2 (X11_differ_returns_iff_readable Samples.no_scenarios
                  Samples.template)).
  reflexivity.
Defined.

Lemma flat_mapi_from_length {A B : Type} (g : nat -> A -> list B) (n : nat)
  (l : list A) :
  (forall i x, length (g i x) <= n) ->
  forall i, length (flat_mapi_from g i l) <= n * length l.
Proof.
  intros H. induction l as [|x l IH]; intros i; [apply Nat.le_0_l|].
  cbn [flat_mapi_from length]. rewrite length_app, Nat.mul_succ_r, Nat.add_comm.
  apply Nat.add_le_mono; [apply IH | apply H].
Qed.

(** X13. When [simpleDiff] returns, the change lines come scenario by
    scenario in the order of [current.scenarios], and within a scenario in
    the order [name], [triggers], [steps], one line for each field whose
    serialized values differ; the text returned is these lines joined by
    line breaks, or the sentinel when there is none. *)
Theorem X13_change_lines_in_scenario_then_field_order (current version : value)
  (cs : list value) :
  get_opt current "scenarios" = VArr cs ->
  DifferSpec.entries_ok current version = true ->
  let lines :=
    flat_mapi
      (fun i s =>
         field_change version i s "name"
           ++ field_change version i s "triggers"
           ++ field_change version i s "steps")%list
      cs in
  Differ.changes current version = Ok lines
  /\ Differ.simpleDiff current version
     = Ok (match lines with
           | [] => "No differences found."
           | _ :: _ => String.concat newline lines
           end)
  /\ length lines <= 3 * length cs.
Proof.
  intros Hc Hok lines.
  assert (E : expected_changes current version = lines).
  { unfold expected_changes. now rewrite Hc. }
  split; [|split].
  - now rewrite (changes_returns current version Hok), E.
  - rewrite (simpleDiff_returns current version Hok), E.
    now destruct lines.
  - subst lines. unfold flat_mapi. apply flat_mapi_from_length.
    intros i s. unfold field_change. cbv zeta.
    repeat match goal with
           | |- context [if ?b then _ else _] => destruct b
           end; cbn; repeat constructor.
Qed.

Lemma X13_witness :
  Differ.changes Samples.two_scenarios Samples.one_scenario
  = Ok ["Scenario 0.name: " ++ dquote ++ "Y" ++ dquote ++ " → "
          ++ dquote ++ "X" ++ dquote;
        "Scenario 1.name: undefined → " ++ dquote ++ "Z" ++ dquote].
Proof.
  apply (proj1 (X13_change_lines_in_scenario_then_field_order
                  Samples.two_scenarios Samples.one_scenario _
                  eq_refl eq_refl)).
Defined.

(** X14. A scenario of [current] at an index where [version] has no
    scenario is compared with the empty object: when [version.scenarios] is
    a sequence too short to have the index, every one of its three fields
    that serializes to a text [t] is reported as a change from [undefined]
    to [t]. *)
Theorem X14_scenario_without_counterpart_is_reported (current version : value)
  (cs vs : list value) (i : nat) (s : value) (f t : string) :
  get_opt current "scenarios" = VArr cs ->
  get_opt version "scenarios" = VArr vs ->
  forallb non_null cs = true ->
  nth_error cs i = Some s ->
  length vs <= i ->
  In f ["name"; "triggers"; "steps"] ->
  stringify (get_opt s f) = Some t ->
  exists l,
    Differ.changes current version = Ok l
    /\ In ("Scenario " ++ string_of_nat i ++ "." ++ f ++ ": undefined → " ++ t) l.
Proof.
  intros Hc Hv Hcs Hi Hlen Hf Ht.
  pose proof (entries_ok_arrays current version cs vs Hc Hv Hcs) as Hok.
  exists (expected_changes current version).
  split; [now apply changes_returns|].
  apply (in_expected_changes current version cs _ Hc).
  exists i, s, f.
  assert (Ho : other_scenario version i = VObj []).
  { rewrite (other_scenario_array version vs i Hv).
    now rewrite (nth_overflow vs VUndef Hlen). }
  rewrite Ho.
  assert (Hu : get_opt (VObj []) f = VUndef) by reflexivity.
  rewrite Hu, Ht. repeat split; auto.
  unfold Differ.change_line, Differ.path, Differ.arrow. cbn [stringify interpolate].
  rewrite !append_assoc, Ht. reflexivity.
Qed.

Lemma X14_witness :
  exists l,
    Differ.changes Samples.two_scenarios Samples.one_scenario = Ok l
    /\ In ("Scenario " ++ string_of_nat 1 ++ "." ++ "name" ++ ": undefined → "
             ++ (dquote ++ "Z" ++ dquote)) l.
Proof.
  apply (X14_scenario_without_counterpart_is_reported
           Samples.two_scenarios Samples.one_scenario _ _ 1 _ "name"
           (dquote ++ "Z" ++ dquote) eq_refl eq_refl eq_refl eq_refl).
  - apply le_n.
  - left. reflexivity.
  - reflexivity.
Defined.
(** ** The generated templates *)

(** X15. Every template the generator builds, for either trigger type and
    any clock reading, passes the validator with no error, is simulated
    without exception (one trigger line with the type and its default value,
    one step line with "No actions"), and differs in nothing from itself. *)
Theorem X15_generated_template_is_valid (t : Template.trigger_type) (now : Z) :
  In t Template.types ->
  Validator.validate (Template.template t now) = Ok []
  /\ Validator.validate_command (Template.template t now)
     = Validator.Notice "YAML is valid!"
  /\ Simulator.simulate (Template.template t now)
     = Ok ("Simulation:" ++ newline
             ++ "Scenario 0: New Scenario" ++ newline
             ++ "  Trigger 0: " ++ Template.type_value t ++ " -> "
             ++ match Template.defaultValue t with
                | VStr s => s
                | v => interpolate (stringify v)
                end
             ++ newline
             ++ "  Step 0: scenarios.steps.actions.v2 -> No actions")
  /\ Differ.simpleDiff (Template.template t now) (Template.template t now)
     = Ok "No differences found.".
Proof.
  intros [<-|[<-|[]]].
  - split; [reflexivity|]. split; [reflexivity|]. split; [reflexivity|].
    reflexivity.
  - split; [reflexivity|]. split; [reflexivity|]. split; [reflexivity|].
    reflexivity.
Qed.

Lemma X15_witness :
  Validator.validate
    (Template.template
       {| Template.type_name := "Timetable";
          Template.type_value := "scenario.trigger.timetable";
          Template.defaultValue := Template.timetable_default |} 1762136707000)
  = Ok [].
Proof.
  apply (X15_generated_template_is_valid
           {| Template.type_name := "Timetable";
              Template.type_value := "scenario.trigger.timetable";
              Template.defaultValue := Template.timetable_default |}
           1762136707000).
  right. left. reflexivity.
Defined.

Lemma X7_witness : Validator.validate Samples.template = Ok [].
Proof.
  apply (proj2 (X7_valid_notice_iff_well_formed Samples.template)).
  reflexivity.
Defined.
